(** * Definition extractor of the dictionary backend

    A shallow embedding of [backend/dictionary/index.py]: the request
    [handler] and the extraction routine [parse_definitions], together
    with the fragment of Python's [str] and [re] that they rely on. *)

From Stdlib Require Import String Ascii.
From Stdlib Require Import List NArith ZArith Bool Arith Lia.
Import ListNotations.

Set Implicit Arguments.

(** ** Python strings

    A Python [str] is a sequence of Unicode code points; [len] counts code
    points, so a string is a list of code points here (not of bytes). *)

Definition char := N.
Definition str := list char.

(** ASCII literals of the source, written as Rocq strings. *)
Definition lit (s : string) : str := map N_of_ascii (list_ascii_of_string s).

Module Py.

(** [str.isspace] on one code point, which is also what [\s] matches in a
    [str] pattern and what [str.strip] removes: the characters whose
    bidirectional class is WS, B or S or whose category is Zs. *)
Definition isspace (c : char) : bool :=
  ((9 <=? c) && (c <=? 13) || (28 <=? c) && (c <=? 32)
   || (c =? 133) || (c =? 160) || (c =? 5760)
   || (8192 <=? c) && (c <=? 8202)
   || (c =? 8232) || (c =? 8233) || (c =? 8239) || (c =? 8287)
   || (c =? 12288))%N.

Fixpoint lstrip (s : str) : str :=
  match s with
  | [] => []
  | c :: s' => if isspace c then lstrip s' else s
  end.

Definition rstrip (s : str) : str := rev (lstrip (rev s)).

(** [s.strip()] *)
Definition strip (s : str) : str := rstrip (lstrip s).

(** [s.split(sep)] for a separator of one character; [acc] holds the
    segment being read, reversed. *)
Fixpoint split_acc (sep : char) (acc : str) (s : str) : list str :=
  match s with
  | [] => [rev acc]
  | c :: s' =>
      if (c =? sep)%N then rev acc :: split_acc sep [] s'
      else split_acc sep (c :: acc) s'
  end.

Definition split (sep : char) (s : str) : list str := split_acc sep [] s.

(** Truth value of a string: [bool(s)]. *)
Definition truthy (s : str) : bool :=
  match s with [] => false | _ :: _ => true end.

End Py.

(** ** Exceptions *)

Inductive exn : Type :=
| IndexError
| FetchError (msg : str).

Inductive result (A : Type) : Type :=
| Ok (a : A)
| Raise (e : exn).

Arguments Ok {A} a.
Arguments Raise {A} e.

Definition bind {A B : Type} (r : result A) (f : A -> result B) : result B :=
  match r with
  | Ok a => f a
  | Raise e => Raise e
  end.

Notation "x <- r ;; k" := (bind r (fun x => k))
  (at level 61, r at next level, right associativity).

(** [xs[i]] for a non-negative literal index. *)
Definition py_index {A : Type} (xs : list A) (i : nat) : result A :=
  match nth_error xs i with
  | Some x => Ok x
  | None => Raise IndexError
  end.

(** [for x in xs: st = body(st, x)], stopping at the first exception. *)
Fixpoint for_each {A S : Type} (body : S -> A -> result S) (xs : list A) (st : S)
  : result S :=
  match xs with
  | [] => Ok st
  | x :: xs' => st' <- body st x ;; for_each body xs' st'
  end.

(** ** The fragment of [re] used by the source

    Every pattern of the source is a sequence of single-character items,
    each with a quantifier, with at most one capturing group.  The matcher
    is a backtracking one with the priorities of [re]: a greedy quantifier
    tries the longest repetition first, a lazy one the shortest. *)

Module Re.

Inductive cls : Type :=
| CChar (c : char)       (* a literal character *)
| CNot (c : char)        (* [^c] *)
| CSpace                 (* \s *)
| CAny.                  (* . under re.DOTALL *)

Inductive quant : Type :=
| One                    (* no quantifier *)
| StarGreedy             (* * *)
| PlusGreedy             (* + *)
| StarLazy.              (* *? *)

Inductive item : Type :=
| Atom (c : cls) (q : quant)
| Open                   (* ( of group 1 *)
| Close.                 (* ) of group 1 *)

Definition regex := list item.

Definition cls_match (c : cls) (x : char) : bool :=
  match c with
  | CChar a => (x =? a)%N
  | CNot a => negb (x =? a)%N
  | CSpace => Py.isspace x
  | CAny => true
  end.

(** The text still to be read where group 1 opened and where it closed. *)
Record groups : Type := { g_open : option str; g_close : option str }.

Definition no_groups : groups := {| g_open := None; g_close := None |}.

Section Matcher.
Variable R : Type.

(** [c*] then the continuation [k]: longest repetition first. *)
Fixpoint star_greedy (c : cls) (k : str -> option R) (s : str) : option R :=
  match s with
  | x :: s' =>
      if cls_match c x then
        match star_greedy c k s' with
        | Some r => Some r
        | None => k s
        end
      else k s
  | [] => k s
  end.

(** [c*?] then the continuation [k]: shortest repetition first. *)
Fixpoint star_lazy (c : cls) (k : str -> option R) (s : str) : option R :=
  match k s with
  | Some r => Some r
  | None =>
      match s with
      | x :: s' => if cls_match c x then star_lazy c k s' else None
      | [] => None
      end
  end.
End Matcher.

(** Matches the items [p] at the start of [s]; the result is the group
    state and the text left after the match. *)
Fixpoint run (p : regex) (g : groups) (s : str) : option (groups * str) :=
  match p with
  | [] => Some (g, s)
  | Atom c One :: p' =>
      match s with
      | x :: s' => if cls_match c x then run p' g s' else None
      | [] => None
      end
  | Atom c StarGreedy :: p' => star_greedy c (run p' g) s
  | Atom c PlusGreedy :: p' =>
      match s with
      | x :: s' => if cls_match c x then star_greedy c (run p' g) s' else None
      | [] => None
      end
  | Atom c StarLazy :: p' => star_lazy c (run p' g) s
  | Open :: p' => run p' {| g_open := Some s; g_close := g_close g |} s
  | Close :: p' => run p' {| g_open := g_open g; g_close := Some s |} s
  end.

(** A match object: the length of the match and the text of group 1
    (empty when the pattern has no group). *)
Record rmatch : Type := { m_len : nat; m_group : str }.

Definition group_text (g : groups) : str :=
  match g_open g, g_close g with
  | Some so, Some sc => firstn (length so - length sc) so
  | _, _ => []
  end.

(** [pattern.match(s)] at the current position. *)
Definition match_at (p : regex) (s : str) : option rmatch :=
  match run p no_groups s with
  | Some (g, rest) =>
      Some {| m_len := length s - length rest; m_group := group_text g |}
  | None => None
  end.

(** [re.search(p, s)]: the match at the leftmost position that has one. *)
Fixpoint search (p : regex) (s : str) : option rmatch :=
  match match_at p s with
  | Some m => Some m
  | None =>
      match s with
      | [] => None
      | _ :: s' => search p s'
      end
  end.

(** The scan shared by [findall] and [sub]: non-overlapping matches from
    left to right.  [skip] counts the characters of the last match that
    are still to be passed over; after an empty match the scan moves on
    by one character. *)
Fixpoint findall_from (p : regex) (skip : nat) (s : str) : list str :=
  match skip with
  | S k =>
      match s with
      | [] => []
      | _ :: s' => findall_from p k s'
      end
  | O =>
      match match_at p s with
      | Some m =>
          m_group m ::
            match s with
            | [] => []
            | _ :: s' => findall_from p (pred (m_len m)) s'
            end
      | None =>
          match s with
          | [] => []
          | _ :: s' => findall_from p 0 s'
          end
      end
  end.

(** [re.findall(p, s)] for a pattern with one group: the texts of group 1. *)
Definition findall (p : regex) (s : str) : list str := findall_from p 0 s.

Fixpoint sub_from (p : regex) (repl : str) (skip : nat) (s : str) : str :=
  match skip with
  | S k =>
      match s with
      | [] => []
      | _ :: s' => sub_from p repl k s'
      end
  | O =>
      match match_at p s with
      | Some m =>
          repl ++
            match s with
            | [] => []
            | c :: s' =>
                (if Nat.eqb (m_len m) 0 then [c] else [])
                  ++ sub_from p repl (pred (m_len m)) s'
            end
      | None =>
          match s with
          | [] => []
          | c :: s' => c :: sub_from p repl 0 s'
          end
      end
  end.

(** [re.sub(p, repl, s)] for a replacement without group references. *)
Definition sub (p : regex) (repl : str) (s : str) : str := sub_from p repl 0 s.

(** A run of literal characters. *)
Definition chars (s : str) : regex := map (fun c => Atom (CChar c) One) s.

End Re.

(** ** The patterns of the source *)

Definition GT : char := 62%N.          (* > *)
Definition LT : char := 60%N.          (* < *)
Definition SPACE : char := 32%N.
Definition QUOTE : char := 34%N.
Definition DIAMOND : char := 9670%N.   (* the separator glyph, U+25C6 *)

Definition capture_lazy : Re.regex :=
  [Re.Open; Re.Atom Re.CAny Re.StarLazy; Re.Close].

Definition not_gt_star : Re.regex := [Re.Atom (Re.CNot GT) Re.StarGreedy].

(** [<section[^>]*data-mw-section-id="1"[^>]*>(.*?)</section>], DOTALL *)
Definition section_re : Re.regex :=
  Re.chars (lit "<section") ++ not_gt_star
    ++ Re.chars (lit "data-mw-section-id=" ++ [QUOTE] ++ lit "1" ++ [QUOTE])
    ++ not_gt_star ++ Re.chars (lit ">")
    ++ capture_lazy ++ Re.chars (lit "</section>").

(** [<ol>(.*?)</ol>], DOTALL *)
Definition ol_pattern : Re.regex :=
  Re.chars (lit "<ol>") ++ capture_lazy ++ Re.chars (lit "</ol>").

(** [<li[^>]*>(.*?)</li>], DOTALL *)
Definition li_re : Re.regex :=
  Re.chars (lit "<li") ++ not_gt_star ++ Re.chars (lit ">")
    ++ capture_lazy ++ Re.chars (lit "</li>").

(** [<p[^>]*>(.*?)</p>], DOTALL *)
Definition p_re : Re.regex :=
  Re.chars (lit "<p") ++ not_gt_star ++ Re.chars (lit ">")
    ++ capture_lazy ++ Re.chars (lit "</p>").

(** [<[^>]+>] *)
Definition tag_re : Re.regex :=
  [Re.Atom (Re.CChar LT) Re.One; Re.Atom (Re.CNot GT) Re.PlusGreedy;
   Re.Atom (Re.CChar GT) Re.One].

(** [\s+] *)
Definition ws_re : Re.regex := [Re.Atom Re.CSpace Re.PlusGreedy].

(** ** Definition records *)

Record DefinitionRecord : Type := {
  id : Z;
  meaning : str;
  partOfSpeech : str;
  examples : list str
}.

(** The label of the primary path, the Russian word for "definition". *)
Definition PRIMARY_LABEL : str :=
  [1086; 1087; 1088; 1077; 1076; 1077; 1083; 1077; 1085; 1080; 1077]%N.

(** ** parse_definitions *)

(** The two [re.sub] calls and the [strip] applied to every block. *)
Definition clean (content : str) : str :=
  let clean_text := Re.sub tag_re [] content in
  Py.strip (Re.sub ws_re [SPACE] clean_text).

(** The local variables [definitions] and [def_id]. *)
Definition pstate : Type := (list DefinitionRecord * Z)%type.

(** Body of the loop over [li_items[:5]]. *)
Definition li_body (st : pstate) (li_content : str) : result pstate :=
  let '(definitions, def_id) := st in
  let clean_text := clean li_content in
  if (10 <? length clean_text) && (length clean_text <? 500) then
    let parts := Py.split DIAMOND clean_text in
    parts0 <- py_index parts 0 ;;
    let meaning := Py.strip parts0 in
    let examples :=
      map Py.strip
        (filter (fun ex => Py.truthy (Py.strip ex) && (5 <? length (Py.strip ex)))
           (skipn 1 parts)) in
    Ok (definitions ++
          [{| id := def_id; meaning := meaning; partOfSpeech := PRIMARY_LABEL;
              examples := firstn 2 examples |}],
        (def_id + 1)%Z)
  else Ok st.

(** Body of the loop over [ol_matches[:3]]. *)
Definition ol_body (st : pstate) (ol_content : str) : result pstate :=
  let li_items := Re.findall li_re ol_content in
  for_each li_body (firstn 5 li_items) st.

(** The loop over [p_tags[:3]], which leaves at the first accepted block. *)
Fixpoint p_loop (p_tags : list str) (st : pstate) : pstate :=
  match p_tags with
  | [] => st
  | p_content :: rest =>
      let '(definitions, def_id) := st in
      let clean_text := clean p_content in
      if (30 <? length clean_text) && (length clean_text <? 300) then
        (definitions ++
           [{| id := def_id; meaning := clean_text; partOfSpeech := [];
               examples := [] |}],
         (def_id + 1)%Z)
      else p_loop rest st
  end.

(** The primary path: the state after the [if section_match:] block. *)
Definition primary (html : str) : result pstate :=
  let st0 : pstate := ([], 1%Z) in
  match Re.search section_re html with
  | Some section_match =>
      let section_html := Re.m_group section_match in
      let ol_matches := Re.findall ol_pattern section_html in
      for_each ol_body (firstn 3 ol_matches) st0
  | None => Ok st0
  end.

(** The fallback path: the [if not definitions:] block. *)
Definition fallback (html : str) (st : pstate) : pstate :=
  match fst st with
  | [] =>
      let p_tags := Re.findall p_re html in
      p_loop (firstn 3 p_tags) st
  | _ :: _ => st
  end.

Definition parse_definitions (html : str) (word : str)
  : result (list DefinitionRecord) :=
  st <- primary html ;;
  let st' := fallback html st in
  Ok (firstn 10 (fst st')).

(** ** The request handler *)

(** The part of the event the handler reads: [None] is a missing key. *)
Record Event : Type := {
  httpMethod : option str;
  queryStringParameters : option (list (str * str))
}.

(** The value handed to [json.dumps], or the empty body. *)
Inductive Body : Type :=
| EmptyBody
| ErrorBody (error : str)
| DefinitionsBody (word : str) (definitions : list DefinitionRecord).

Record Response : Type := {
  statusCode : Z;
  headers : list (str * str);
  body : Body;
  isBase64Encoded : bool
}.

Definition str_eqb (a b : str) : bool :=
  if list_eq_dec N.eq_dec a b then true else false.

(** [d.get(key, default)] *)
Fixpoint dict_get (d : list (str * str)) (key : str) (default : str) : str :=
  match d with
  | [] => default
  | (k, v) :: d' => if str_eqb k key then v else dict_get d' key default
  end.

Definition cors_headers : list (str * str) :=
  [(lit "Access-Control-Allow-Origin", lit "*");
   (lit "Access-Control-Allow-Methods", lit "GET, OPTIONS");
   (lit "Access-Control-Allow-Headers", lit "Content-Type");
   (lit "Access-Control-Max-Age", lit "86400")].

Definition json_headers : list (str * str) :=
  [(lit "Content-Type", lit "application/json");
   (lit "Access-Control-Allow-Origin", lit "*")].

Definition json_response (status : Z) (b : Body) : Response :=
  {| statusCode := status; headers := json_headers; body := b;
     isBase64Encoded := false |}.

(** The three Russian messages of the source, as code points. *)
Definition MSG_WORD_REQUIRED : str :=
  [1055; 1072; 1088; 1072; 1084; 1077; 1090; 1088; 32; 119; 111; 114; 100; 32;
   1086; 1073; 1103; 1079; 1072; 1090; 1077; 1083; 1077; 1085]%N.

Definition MSG_NOT_FOUND : str :=
  [1057; 1083; 1086; 1074; 1086; 32; 1085; 1077; 32; 1085; 1072; 1081; 1076;
   1077; 1085; 1086]%N.

Definition MSG_FETCH_PREFIX : str :=
  [1054; 1096; 1080; 1073; 1082; 1072; 32; 1087; 1088; 1080; 32; 1087; 1086;
   1083; 1091; 1095; 1077; 1085; 1080; 1080; 32; 1076; 1072; 1085; 1085; 1099;
   1093; 58; 32]%N.

(** [str(e)] *)
Definition exn_message (e : exn) : str :=
  match e with
  | IndexError => lit "list index out of range"
  | FetchError msg => msg
  end.

Section Handler.

(** The outbound request for the page of a word, with the decoding of its
    body: the markup, or the exception raised on the way. *)
Variable fetch : str -> result str.

(** The [try] block. *)
Definition fetch_and_parse (word : str) : result Response :=
  html_content <- fetch word ;;
  definitions <- parse_definitions html_content word ;;
  match definitions with
  | [] => Ok (json_response 404 (ErrorBody MSG_NOT_FOUND))
  | _ :: _ => Ok (json_response 200 (DefinitionsBody word definitions))
  end.

Definition handler (event : Event) : Response :=
  let method := match httpMethod event with Some m => m | None => lit "GET" end in
  if str_eqb method (lit "OPTIONS") then
    {| statusCode := 200; headers := cors_headers; body := EmptyBody;
       isBase64Encoded := false |}
  else if negb (str_eqb method (lit "GET")) then
    json_response 405 (ErrorBody (lit "Method not allowed"))
  else
    let params :=
      match queryStringParameters event with
      | Some d => d
      | None => []
      end in
    let word := Py.strip (dict_get params (lit "word") []) in
    if negb (Py.truthy word) then
      json_response 400 (ErrorBody MSG_WORD_REQUIRED)
    else
      match fetch_and_parse word with
      | Ok response => response
      | Raise e => json_response 500 (ErrorBody (MSG_FETCH_PREFIX ++ exn_message e))
      end.

End Handler.

(** ** Properties of texts *)

(** A tag in the sense of the stripping pattern: [<], one or more
    characters other than [>], and [>]. *)
Fixpoint has_gt (s : str) : bool :=
  match s with
  | [] => false
  | c :: s' => (c =? GT)%N || has_gt s'
  end.

(** The text after the first [>]. *)
Fixpoint after_gt (s : str) : str :=
  match s with
  | [] => []
  | c :: s' => if (c =? GT)%N then s' else after_gt s'
  end.

Definition tag_starts (s : str) : bool :=
  match s with
  | c :: x :: b => (c =? LT)%N && negb (x =? GT)%N && has_gt b
  | _ => false
  end.

(** Some position of the text starts a tag. *)
Fixpoint has_tag (s : str) : bool :=
  match s with
  | [] => false
  | _ :: s' => tag_starts s || has_tag s'
  end.



(** Whitespace is collapsed: every whitespace character is a space, and no
    two of them are adjacent. *)
Fixpoint collapsed (s : str) : bool :=
  match s with
  | [] => true
  | c :: s' =>
      (negb (Py.isspace c)
       || ((c =? SPACE)%N
           && match s' with
              | [] => true
              | x :: _ => negb (Py.isspace x)
              end))
      && collapsed s'
  end.

(** ** The scanned blocks, as the specification counts them *)

(** The length filters. *)
Definition li_qualifies (clean_text : str) : bool :=
  (10 <? length clean_text) && (length clean_text <? 500).

Definition p_qualifies (clean_text : str) : bool :=
  (30 <? length clean_text) && (length clean_text <? 300).

(** The list items the primary path looks at: at most 5 of each of at most
    3 ordered lists of the section. *)
Definition scanned_items (section_html : str) : list str :=
  flat_map (fun ol_content => firstn 5 (Re.findall li_re ol_content))
    (firstn 3 (Re.findall ol_pattern section_html)).

Definition qualifying_items (section_html : str) : list str :=
  filter (fun li_content => li_qualifies (clean li_content))
    (scanned_items section_html).

(** The paragraph blocks the fallback path looks at. *)
Definition scanned_paragraphs (html : str) : list str :=
  firstn 3 (Re.findall p_re html).

Definition fallback_record (clean_text : str) : DefinitionRecord :=
  {| id := 1; meaning := clean_text; partOfSpeech := []; examples := [] |}.

(** The text before the first separator: the first element of a split. *)
Fixpoint first_segment (sep : char) (s : str) : str :=
  match s with
  | [] => []
  | c :: s' => if (c =? sep)%N then [] else c :: first_segment sep s'
  end.

(** The record the primary path builds from a cleaned item. *)
Definition primary_record (def_id : Z) (clean_text : str) : DefinitionRecord :=
  let parts := Py.split DIAMOND clean_text in
  {| id := def_id;
     meaning := Py.strip (hd [] parts);
     partOfSpeech := PRIMARY_LABEL;
     examples :=
       firstn 2
         (map Py.strip
            (filter (fun ex => Py.truthy (Py.strip ex) && (5 <? length (Py.strip ex)))
               (skipn 1 parts))) |}.

(** Records of consecutive ids for a list of cleaned items. *)
Fixpoint numbered (def_id : Z) (texts : list str) : list DefinitionRecord :=
  match texts with
  | [] => []
  | t :: ts => primary_record def_id t :: numbered (def_id + 1) ts
  end.

(** The cleaned texts of the items that pass the length filter. *)
Definition accepted (items : list str) : list str :=
  map clean (filter (fun li_content => li_qualifies (clean li_content)) items).

(** The records of the primary path. *)
Definition primary_records (html : str) : list DefinitionRecord :=
  match Re.search section_re html with
  | Some section_match =>
      numbered 1 (accepted (scanned_items (Re.m_group section_match)))
  | None => []
  end.

(** What the fallback path returns. *)
Definition fallback_result (html : str) : list DefinitionRecord :=
  match find (fun p_content => p_qualifies (clean p_content))
          (scanned_paragraphs html) with
  | Some p_content => [fallback_record (clean p_content)]
  | None => []
  end.

(** ** Markup used in the examples *)

Definition section_open : str :=
  lit "<section data-mw-section-id=" ++ [QUOTE] ++ lit "1" ++ [QUOTE] ++ lit ">".

Definition example_markup : str :=
  section_open
    ++ lit "<ol><li>A short meaning" ++ [DIAMOND] ++ lit "Example one"
    ++ [DIAMOND] ++ lit "Example two</li></ol></section>".

Definition example_record : DefinitionRecord :=
  {| id := 1; meaning := lit "A short meaning"; partOfSpeech := PRIMARY_LABEL;
     examples := [lit "Example one"; lit "Example two"] |}.

(** A section with one list of one item. *)
Definition one_item_markup (li_content : str) : str :=
  section_open ++ lit "<ol><li>" ++ li_content ++ lit "</li></ol></section>".

(** A document with one paragraph and no section. *)
Definition one_paragraph_markup (p_content : str) : str :=
  lit "<p>" ++ p_content ++ lit "</p>".

(** A section with [n] lists of [k] items each, all with the same text. *)
Definition ol_block (k : nat) (li_content : str) : str :=
  lit "<ol>" ++ concat (repeat (lit "<li>" ++ li_content ++ lit "</li>") k)
    ++ lit "</ol>".

Definition lists_markup (n k : nat) (li_content : str) : str :=
  section_open ++ concat (repeat (ol_block k li_content) n) ++ lit "</section>".

(** An item whose text starts with the separator glyph. *)
Definition leading_separator_markup : str :=
  one_item_markup ([DIAMOND] ++ lit "Example one here").



(** A paragraph of 35 characters. *)
Definition paragraph35 : str := lit "this paragraph is thirty-five chars".

(** A section whose only item is too short, followed by a paragraph. *)
Definition short_item_markup : str :=
  one_item_markup (lit "short") ++ one_paragraph_markup paragraph35.

Definition get_event (word : str) : Event :=
  {| httpMethod := Some (lit "GET");
     queryStringParameters := Some [(lit "word", word)] |}.

(** The local variables [method] and [word] of the handler, and the
    parameter before it is trimmed. *)
Definition event_method (event : Event) : str :=
  match httpMethod event with Some m => m | None => lit "GET" end.

Definition event_raw_word (event : Event) : str :=
  dict_get (match queryStringParameters event with Some d => d | None => [] end)
    (lit "word") [].

Definition event_word (event : Event) : str := Py.strip (event_raw_word event).

(** * Properties *)

(** ** Python helpers *)

Lemma split_acc_cons (sep : char) (s acc : str) :
  exists p ps, Py.split_acc sep acc s = (rev acc ++ p) :: ps.
Proof.
  revert acc; induction s as [|c s IH]; intros acc; simpl.
  - exists [], []. now rewrite app_nil_r.
  - destruct (c =? sep)%N.
    + exists [], (Py.split_acc sep [] s). now rewrite app_nil_r.
    + destruct (IH (c :: acc)) as (p & ps & E). rewrite E. simpl.
      exists (c :: p), ps. now rewrite <- app_assoc.
Qed.

Lemma split_nonempty (sep : char) (s : str) :
  exists p ps, Py.split sep s = p :: ps.
Proof.
  destruct (split_acc_cons sep s []) as (p & ps & E).
  exists p, ps. exact E.
Qed.

Lemma py_index_split_0 (sep : char) (s : str) :
  py_index (Py.split sep s) 0 = Ok (hd [] (Py.split sep s)).
Proof.
  destruct (split_nonempty sep s) as (p & ps & E). now rewrite E.
Qed.

(** ** The loops of the primary path *)

Lemma li_body_spec (defs : list DefinitionRecord) (n : Z) (li_content : str) :
  li_body (defs, n) li_content =
  Ok (if li_qualifies (clean li_content)
      then (defs ++ [primary_record n (clean li_content)], (n + 1)%Z)
      else (defs, n)).
Proof.
  unfold li_body, li_qualifies.
  destruct ((10 <? length (clean li_content)) && (length (clean li_content) <? 500));
    [|reflexivity].
  rewrite py_index_split_0. reflexivity.
Qed.

Lemma numbered_app (n : Z) (a b : list str) :
  numbered n (a ++ b) = numbered n a ++ numbered (n + Z.of_nat (length a)) b.
Proof.
  revert n; induction a as [|t a IH]; intros n; simpl.
  - now rewrite Z.add_0_r.
  - rewrite IH. do 3 f_equal. lia.
Qed.

Lemma numbered_length (n : Z) (ts : list str) :
  length (numbered n ts) = length ts.
Proof. revert n; induction ts; intros; simpl; auto. Qed.

Lemma accepted_app (a b : list str) : accepted (a ++ b) = accepted a ++ accepted b.
Proof. unfold accepted. now rewrite filter_app, map_app. Qed.

Lemma for_each_li_body (items : list str) (defs : list DefinitionRecord) (n : Z) :
  for_each li_body items (defs, n) =
  Ok (defs ++ numbered n (accepted items),
      (n + Z.of_nat (length (accepted items)))%Z).
Proof.
  revert defs n; induction items as [|li items IH]; intros defs n.
  - simpl. now rewrite app_nil_r, Z.add_0_r.
  - cbn [for_each]. rewrite li_body_spec. cbn [bind].
    unfold accepted in *. cbn [filter].
    destruct (li_qualifies (clean li)); rewrite IH.
    + cbn [map numbered length]. rewrite <- app_assoc. cbn [app].
      do 2 f_equal. lia.
    + reflexivity.
Qed.

Lemma for_each_ol_body (ols : list str) (defs : list DefinitionRecord) (n : Z) :
  let items := flat_map (fun ol => firstn 5 (Re.findall li_re ol)) ols in
  for_each ol_body ols (defs, n) =
  Ok (defs ++ numbered n (accepted items),
      (n + Z.of_nat (length (accepted items)))%Z).
Proof.
  revert defs n; induction ols as [|ol ols IH]; intros defs n; cbn zeta in *.
  - simpl. now rewrite app_nil_r, Z.add_0_r.
  - cbn [for_each flat_map]. unfold ol_body at 1.
    rewrite for_each_li_body. cbn [bind]. rewrite IH.
    rewrite accepted_app, numbered_app, length_app, <- app_assoc.
    do 2 f_equal. lia.
Qed.

Lemma primary_spec (html : str) :
  primary html =
  Ok (primary_records html, (1 + Z.of_nat (length (primary_records html)))%Z).
Proof.
  unfold primary, primary_records.
  destruct (Re.search section_re html) as [m|]; [|reflexivity].
  rewrite for_each_ol_body. cbn [app]. unfold scanned_items.
  now rewrite numbered_length.
Qed.

Lemma accepted_length (items : list str) :
  length (accepted items) =
  length (filter (fun li_content => li_qualifies (clean li_content)) items).
Proof. unfold accepted. apply length_map. Qed.

Lemma scanned_items_length (section_html : str) :
  length (scanned_items section_html) <= 15.
Proof.
  unfold scanned_items.
  assert (H : forall ols : list str,
             length (flat_map (fun ol => firstn 5 (Re.findall li_re ol)) ols)
             <= 5 * length ols).
  { induction ols as [|ol ols IH]; cbn [flat_map length]; [lia|].
    rewrite length_app.
    pose proof (length_firstn 5 (Re.findall li_re ol)). lia. }
  specialize (H (firstn 3 (Re.findall ol_pattern section_html))).
  pose proof (length_firstn 3 (Re.findall ol_pattern section_html)). lia.
Qed.

Lemma qualifying_items_length (section_html : str) :
  length (qualifying_items section_html) <= 15.
Proof.
  unfold qualifying_items.
  pose proof (filter_length_le (fun li_content => li_qualifies (clean li_content))
                (scanned_items section_html)).
  pose proof (scanned_items_length section_html). lia.
Qed.

(** ** The fallback loop *)

Lemma p_loop_spec (p_tags : list str) :
  fst (p_loop p_tags ([], 1%Z)) =
  match find (fun p_content => p_qualifies (clean p_content)) p_tags with
  | Some p_content => [fallback_record (clean p_content)]
  | None => []
  end.
Proof.
  induction p_tags as [|p ps IH]; [reflexivity|].
  cbn [p_loop find]. unfold p_qualifies at 1.
  destruct ((30 <? length (clean p)) && (length (clean p) <? 300)); [reflexivity|].
  exact IH.
Qed.

(** ** The whole extraction *)

Lemma parse_definitions_spec (html word : str) :
  parse_definitions html word =
  Ok (firstn 10
        match primary_records html with
        | [] => fallback_result html
        | _ :: _ => primary_records html
        end).
Proof.
  unfold parse_definitions. rewrite primary_spec. cbn [bind].
  unfold fallback. cbn [fst].
  destruct (primary_records html) as [|r rs] eqn:E; [|reflexivity].
  cbn [length Z.of_nat]. change (1 + 0)%Z with 1%Z.
  unfold fallback_result, scanned_paragraphs. now rewrite p_loop_spec.
Qed.

(** ** The matcher on the two substitution patterns *)

Lemma str_length_ind (P : str -> Prop) :
  (forall s, (forall t, length t < length s -> P t) -> P s) -> forall s, P s.
Proof.
  intros H s.
  assert (G : forall n t, length t < n -> P t).
  { induction n as [|n IH]; intros t Ht; [lia|].
    apply H. intros u Hu. apply IH. lia. }
  apply (G (S (length s))). lia.
Qed.

Lemma skipn_suffix (a t : str) : skipn (length (a ++ t) - length t) (a ++ t) = t.
Proof.
  rewrite length_app.
  replace (length a + length t - length t) with (length a) by lia.
  rewrite skipn_app, skipn_all, Nat.sub_diag. reflexivity.
Qed.

Lemma sub_from_skip (p : Re.regex) (repl : str) (k : nat) (s : str) :
  k <= length s ->
  Re.sub_from p repl k s = Re.sub_from p repl 0 (skipn k s).
Proof.
  revert s; induction k as [|k IH]; intros s Hk; [reflexivity|].
  destruct s as [|c s]; [simpl in Hk; lia|].
  cbn [Re.sub_from skipn]. apply IH. simpl in Hk. lia.
Qed.

Lemma lstrip_suffix (s : str) : exists a, s = a ++ Py.lstrip s.
Proof.
  induction s as [|c s [a IH]]; [now exists []|].
  simpl. destruct (Py.isspace c).
  - exists (c :: a). simpl. now f_equal.
  - now exists [].
Qed.

Lemma lstrip_length (s : str) : length (Py.lstrip s) <= length s.
Proof.
  destruct (lstrip_suffix s) as [a E]. rewrite E at 2. rewrite length_app. lia.
Qed.

Lemma after_gt_suffix (s : str) : exists a, s = a ++ after_gt s.
Proof.
  induction s as [|c s [a IH]]; [now exists []|].
  simpl. destruct (c =? GT)%N.
  - now exists [c].
  - exists (c :: a). simpl. now f_equal.
Qed.

Lemma after_gt_length (s : str) : length (after_gt s) <= length s.
Proof.
  destruct (after_gt_suffix s) as [a E]. rewrite E at 2. rewrite length_app. lia.
Qed.

(** [\s*] followed by nothing takes the whole run of whitespace. *)
Lemma star_greedy_space (R : Type) (k : str -> option R) (f : str -> R) (s : str) :
  (forall t, k t = Some (f t)) ->
  Re.star_greedy Re.CSpace k s = Some (f (Py.lstrip s)).
Proof.
  intros Hk. induction s as [|c s IH]; [apply Hk|].
  cbn [Re.star_greedy Re.cls_match Py.lstrip].
  destruct (Py.isspace c); [now rewrite IH|apply Hk].
Qed.

Lemma match_at_ws (c : char) (s : str) :
  Re.match_at ws_re (c :: s) =
  if Py.isspace c
  then Some {| Re.m_len := length (c :: s) - length (Py.lstrip s); Re.m_group := [] |}
  else None.
Proof.
  unfold Re.match_at, ws_re. cbn [Re.run Re.cls_match].
  destruct (Py.isspace c); [|reflexivity].
  now rewrite star_greedy_space with (f := fun t => (Re.no_groups, t)).
Qed.

Lemma ws_sub_nil : Re.sub ws_re [SPACE] [] = [].
Proof. reflexivity. Qed.

Lemma ws_sub_cons (c : char) (s : str) :
  Re.sub ws_re [SPACE] (c :: s) =
  if Py.isspace c
  then SPACE :: Re.sub ws_re [SPACE] (Py.lstrip s)
  else c :: Re.sub ws_re [SPACE] s.
Proof.
  unfold Re.sub. cbn [Re.sub_from]. rewrite match_at_ws.
  destruct (Py.isspace c); [|reflexivity].
  cbn [Re.m_len]. pose proof (lstrip_length s) as L.
  cbn [length].
  replace (S (length s) - length (Py.lstrip s))
    with (S (length s - length (Py.lstrip s))) by lia.
  cbn [Nat.eqb pred app]. f_equal.
  rewrite sub_from_skip by lia. f_equal.
  destruct (lstrip_suffix s) as [a E]. rewrite E at 1 3. apply skipn_suffix.
Qed.

(** [[^>]*] followed by [>] stops at the first [>]. *)
Lemma star_greedy_not_gt (R : Type) (k : str -> option R) (f : str -> R) (s : str) :
  (forall t, k t = match t with
                   | x :: t' => if (x =? GT)%N then Some (f t') else None
                   | [] => None
                   end) ->
  Re.star_greedy (Re.CNot GT) k s =
  if has_gt s then Some (f (after_gt s)) else None.
Proof.
  intros Hk. induction s as [|c s IH];
    cbn [Re.star_greedy Re.cls_match has_gt after_gt]; [now rewrite Hk|].
  destruct (c =? GT)%N eqn:E; cbn [negb orb].
  - rewrite Hk. now rewrite E.
  - rewrite IH. destruct (has_gt s); [reflexivity|].
    cbv beta iota. rewrite Hk. now rewrite E.
Qed.

Lemma match_at_tag (s : str) :
  Re.match_at tag_re s =
  if tag_starts s
  then Some {| Re.m_len := length s - length (after_gt (skipn 2 s));
               Re.m_group := [] |}
  else None.
Proof.
  unfold Re.match_at, tag_re, tag_starts.
  destruct s as [|c [|x b]]; cbn [Re.run Re.cls_match skipn].
  - reflexivity.
  - destruct (c =? LT)%N; reflexivity.
  - destruct (c =? LT)%N; [|reflexivity].
    destruct (x =? GT)%N; [reflexivity|]. cbn [negb andb].
    rewrite star_greedy_not_gt with (f := fun t => (Re.no_groups, t));
      [|intros [|y t]; reflexivity].
    destruct (has_gt b); reflexivity.
Qed.

Lemma tag_sub_nil : Re.sub tag_re [] [] = [].
Proof. reflexivity. Qed.

Lemma tag_sub_cons (c : char) (s : str) :
  Re.sub tag_re [] (c :: s) =
  if tag_starts (c :: s)
  then Re.sub tag_re [] (after_gt (tl s))
  else c :: Re.sub tag_re [] s.
Proof.
  unfold Re.sub. cbn [Re.sub_from]. rewrite match_at_tag.
  destruct (tag_starts (c :: s)) eqn:T; [|reflexivity].
  destruct s as [|x b]; [discriminate|].
  cbn [Re.m_len skipn tl length app].
  pose proof (after_gt_length b) as L.
  replace (S (S (length b)) - length (after_gt b))
    with (S (S (length b - length (after_gt b)))) by lia.
  cbn [Nat.eqb pred app].
  rewrite sub_from_skip by (simpl; lia). f_equal.
  cbn [skipn].
  destruct (after_gt_suffix b) as [a E]. rewrite E at 1 3. apply skipn_suffix.
Qed.

(** ** Tags and whitespace after the two substitutions *)

Lemma has_gt_app (a b : str) : has_gt (a ++ b) = has_gt a || has_gt b.
Proof.
  induction a as [|c a IH]; [reflexivity|].
  simpl. rewrite IH. now rewrite orb_assoc.
Qed.

Lemma has_gt_suffix (a b : str) : has_gt b = true -> has_gt (a ++ b) = true.
Proof. intros H. rewrite has_gt_app, H. apply orb_true_r. Qed.

Lemma tag_starts_not_lt (c : char) (s : str) :
  (c =? LT)%N = false -> tag_starts (c :: s) = false.
Proof. intros H. destruct s; simpl; [reflexivity|now rewrite H]. Qed.

Lemma tag_starts_gt (c : char) (s : str) : tag_starts (c :: GT :: s) = false.
Proof. simpl. now rewrite andb_false_r. Qed.

Lemma tag_starts_no_gt (c : char) (s : str) :
  has_gt s = false -> tag_starts (c :: s) = false.
Proof.
  destruct s as [|x b]; [reflexivity|]. simpl. intros H.
  apply orb_false_iff in H as [_ ->]. apply andb_false_r.
Qed.

Lemma tag_sub_has_gt (s : str) :
  has_gt (Re.sub tag_re [] s) = true -> has_gt s = true.
Proof.
  induction s as [s IH] using str_length_ind.
  destruct s as [|c s]; [discriminate|].
  rewrite tag_sub_cons. destruct (tag_starts (c :: s)) eqn:T.
  - destruct s as [|x b]; [discriminate|]. cbn [tl]. intros H.
    apply IH in H; [|pose proof (after_gt_length b); simpl; lia].
    destruct (after_gt_suffix b) as [a E].
    change (c :: x :: b) with ([c; x] ++ b). apply has_gt_suffix.
    rewrite E. now apply has_gt_suffix.
  - cbn [has_gt]. intros H. apply orb_true_iff in H as [H|H].
    + now rewrite H.
    + apply IH in H; [|simpl; lia]. rewrite H. apply orb_true_r.
Qed.

Lemma tag_starts_tag_sub (c : char) (s : str) :
  tag_starts (c :: s) = false -> tag_starts (c :: Re.sub tag_re [] s) = false.
Proof.
  intros T. destruct (c =? LT)%N eqn:EL; [|now apply tag_starts_not_lt].
  destruct s as [|x b]; [reflexivity|].
  destruct (x =? GT)%N eqn:EG.
  - apply N.eqb_eq in EG. subst x.
    rewrite tag_sub_cons, (@tag_starts_not_lt GT b) by reflexivity.
    apply tag_starts_gt.
  - simpl in T. rewrite EL, EG in T. cbn [negb andb] in T.
    apply tag_starts_no_gt.
    destruct (has_gt (Re.sub tag_re [] (x :: b))) eqn:G; [|reflexivity].
    apply tag_sub_has_gt in G. simpl in G. rewrite EG, T in G. discriminate.
Qed.

Lemma tag_sub_no_tag (s : str) : has_tag (Re.sub tag_re [] s) = false.
Proof.
  induction s as [s IH] using str_length_ind.
  destruct s as [|c s]; [reflexivity|].
  rewrite tag_sub_cons. destruct (tag_starts (c :: s)) eqn:T.
  - destruct s as [|x b]; [discriminate|]. cbn [tl].
    apply IH. pose proof (after_gt_length b). simpl. lia.
  - cbn [has_tag]. rewrite tag_starts_tag_sub by exact T.
    apply IH. simpl. lia.
Qed.

Lemma isspace_not_gt (c : char) : Py.isspace c = true -> (c =? GT)%N = false.
Proof.
  intros H. destruct (N.eqb_spec c GT) as [->|]; [discriminate|reflexivity].
Qed.

Lemma isspace_not_lt (c : char) : Py.isspace c = true -> (c =? LT)%N = false.
Proof.
  intros H. destruct (N.eqb_spec c LT) as [->|]; [discriminate|reflexivity].
Qed.

Lemma lstrip_has_gt (s : str) : has_gt (Py.lstrip s) = has_gt s.
Proof.
  induction s as [|c s IH]; [reflexivity|].
  cbn [Py.lstrip]. destruct (Py.isspace c) eqn:E; [|reflexivity].
  cbn [has_gt]. now rewrite (isspace_not_gt c E).
Qed.

Lemma lstrip_head (s : str) (c : char) (t : str) :
  Py.lstrip s = c :: t -> Py.isspace c = false.
Proof.
  induction s as [|x s IH]; [discriminate|].
  cbn [Py.lstrip]. destruct (Py.isspace x) eqn:E; [exact IH|].
  intros [= <- _]. exact E.
Qed.

Lemma ws_sub_has_gt (s : str) : has_gt (Re.sub ws_re [SPACE] s) = has_gt s.
Proof.
  induction s as [s IH] using str_length_ind.
  destruct s as [|c s]; [reflexivity|].
  rewrite ws_sub_cons. destruct (Py.isspace c) eqn:E.
  - cbn [has_gt]. rewrite (isspace_not_gt c E). cbn [orb].
    change (SPACE =? GT)%N with false. cbn [orb].
    rewrite IH by (pose proof (lstrip_length s); simpl; lia).
    apply lstrip_has_gt.
  - cbn [has_gt]. rewrite IH by (simpl; lia). reflexivity.
Qed.

Lemma ws_sub_collapsed (s : str) : collapsed (Re.sub ws_re [SPACE] s) = true.
Proof.
  induction s as [s IH] using str_length_ind.
  destruct s as [|c s]; [reflexivity|].
  rewrite ws_sub_cons. destruct (Py.isspace c) eqn:E.
  - cbn [collapsed]. rewrite IH by (pose proof (lstrip_length s); simpl; lia).
    rewrite andb_true_r. apply orb_true_iff. right.
    rewrite N.eqb_refl. cbn [andb].
    destruct (Py.lstrip s) as [|y t] eqn:L; [reflexivity|].
    rewrite ws_sub_cons. rewrite (lstrip_head s L). cbn [negb].
    now rewrite (lstrip_head s L).
  - cbn [collapsed]. rewrite E. cbn [negb orb andb]. apply IH. simpl. lia.
Qed.

Lemma tag_starts_app (a b : str) :
  tag_starts (a ++ b) = false -> tag_starts a = false.
Proof.
  destruct a as [|c [|x t]]; try reflexivity.
  cbn [app tag_starts]. rewrite has_gt_app.
  destruct (c =? LT)%N, (x =? GT)%N, (has_gt t); cbn; congruence.
Qed.

Lemma has_tag_app (a b : str) :
  has_tag (a ++ b) = false -> has_tag a = false /\ has_tag b = false.
Proof.
  induction a as [|c a IH]; [now split|].
  change ((c :: a) ++ b) with (c :: (a ++ b)). cbn [has_tag].
  intros H. apply orb_false_iff in H as [H1 H2].
  destruct (IH H2) as [Ha Hb]. split; [|exact Hb].
  rewrite Ha, orb_false_r.
  apply tag_starts_app with (b := b). exact H1.
Qed.

Lemma collapsed_app (a b : str) :
  collapsed (a ++ b) = true -> collapsed a = true /\ collapsed b = true.
Proof.
  induction a as [|c a IH]; [now split|].
  change ((c :: a) ++ b) with (c :: (a ++ b)). cbn [collapsed].
  intros H. apply andb_true_iff in H as [H1 H2].
  destruct (IH H2) as [Ha Hb]. split; [|exact Hb].
  rewrite Ha, andb_true_r.
  destruct a as [|x t]; [|exact H1].
  destruct (Py.isspace c); [|reflexivity].
  cbn [negb orb] in *. apply andb_true_iff in H1 as [-> _]. reflexivity.
Qed.

Lemma ws_sub_no_tag (s : str) :
  has_tag s = false -> has_tag (Re.sub ws_re [SPACE] s) = false.
Proof.
  induction s as [s IH] using str_length_ind.
  destruct s as [|c s]; [reflexivity|].
  cbn [has_tag]. intros H. apply orb_false_iff in H as [T H].
  rewrite ws_sub_cons. destruct (Py.isspace c) eqn:E.
  - cbn [has_tag]. rewrite tag_starts_not_lt by reflexivity. cbn [orb].
    apply IH; [pose proof (lstrip_length s); simpl; lia|].
    destruct (lstrip_suffix s) as [a Ea]. rewrite Ea in H.
    now apply has_tag_app in H.
  - cbn [has_tag]. rewrite IH by (simpl; lia || exact H).
    rewrite orb_false_r.
    destruct (c =? LT)%N eqn:EL; [|now apply tag_starts_not_lt].
    destruct s as [|x b]; [reflexivity|].
    destruct (x =? GT)%N eqn:EG.
    + apply N.eqb_eq in EG. subst x.
      rewrite ws_sub_cons. change (Py.isspace GT) with false. cbv iota.
      apply tag_starts_gt.
    + apply tag_starts_no_gt. rewrite ws_sub_has_gt.
      cbn [tag_starts] in T. rewrite EL, EG in T. cbn [negb andb] in T.
      cbn [has_gt]. now rewrite EG, T.
Qed.

Lemma rev_eq_app (s a b : str) : rev s = a ++ b -> s = rev b ++ rev a.
Proof.
  intros H. rewrite <- (rev_involutive s), H. apply rev_app_distr.
Qed.

Lemma rstrip_prefix (s : str) : exists b, s = Py.rstrip s ++ b.
Proof.
  unfold Py.rstrip. destruct (lstrip_suffix (rev s)) as [a E].
  exists (rev a). now apply rev_eq_app.
Qed.

Lemma strip_infix (s : str) : exists a b, s = a ++ Py.strip s ++ b.
Proof.
  unfold Py.strip.
  destruct (lstrip_suffix s) as [a Ea].
  destruct (rstrip_prefix (Py.lstrip s)) as [b Eb].
  exists a, b. now rewrite <- Eb.
Qed.

Lemma strip_no_tag (s : str) : has_tag s = false -> has_tag (Py.strip s) = false.
Proof.
  intros H. destruct (strip_infix s) as (a & b & E). rewrite E in H.
  apply has_tag_app in H as [_ H]. now apply has_tag_app in H.
Qed.

Lemma strip_collapsed (s : str) :
  collapsed s = true -> collapsed (Py.strip s) = true.
Proof.
  intros H. destruct (strip_infix s) as (a & b & E). rewrite E in H.
  apply collapsed_app in H as [_ H]. now apply collapsed_app in H.
Qed.

Lemma strip_head (s : str) (c : char) (t : str) :
  Py.strip s = c :: t -> Py.isspace c = false.
Proof.
  unfold Py.strip. intros H.
  destruct (rstrip_prefix (Py.lstrip s)) as [b E]. rewrite H in E.
  exact (lstrip_head s E).
Qed.

Lemma clean_no_tag (content : str) : has_tag (clean content) = false.
Proof.
  unfold clean. apply strip_no_tag, ws_sub_no_tag, tag_sub_no_tag.
Qed.

Lemma clean_collapsed (content : str) : collapsed (clean content) = true.
Proof. unfold clean. apply strip_collapsed, ws_sub_collapsed. Qed.

Lemma clean_head (content : str) (c : char) (t : str) :
  clean content = c :: t -> Py.isspace c = false.
Proof. unfold clean. apply strip_head. Qed.

(** ** Records and where they come from *)

Lemma split_acc_hd (sep : char) (s acc : str) :
  hd [] (Py.split_acc sep acc s) = rev acc ++ first_segment sep s.
Proof.
  revert acc; induction s as [|c s IH]; intros acc; cbn [Py.split_acc first_segment].
  - cbn [hd]. now rewrite app_nil_r.
  - destruct (c =? sep)%N.
    + cbn [hd]. now rewrite app_nil_r.
    + rewrite IH. cbn [rev]. now rewrite <- app_assoc.
Qed.

Lemma split_hd (sep : char) (s : str) :
  hd [] (Py.split sep s) = first_segment sep s.
Proof. unfold Py.split. now rewrite split_acc_hd. Qed.

Lemma first_segment_prefix (sep : char) (s : str) :
  exists b, s = first_segment sep s ++ b.
Proof.
  induction s as [|c s [b IH]]; [now exists []|].
  cbn [first_segment]. destruct (c =? sep)%N.
  - now exists (c :: s).
  - exists b. cbn [app]. now f_equal.
Qed.

Lemma lstrip_nil (s : str) (c : char) :
  Py.lstrip s = [] -> In c s -> Py.isspace c = true.
Proof.
  induction s as [|x s IH]; [intros _ []|].
  cbn [Py.lstrip]. destruct (Py.isspace x) eqn:E; [|discriminate].
  intros H [<-|Hin]; [exact E|now apply IH].
Qed.

Lemma strip_cons_nonempty (c : char) (s : str) :
  Py.isspace c = false -> Py.strip (c :: s) <> [].
Proof.
  intros E H. unfold Py.strip in H. cbn [Py.lstrip] in H. rewrite E in H.
  unfold Py.rstrip in H.
  assert (L : Py.lstrip (rev (c :: s)) = []).
  { rewrite <- (rev_involutive (Py.lstrip (rev (c :: s)))), H. reflexivity. }
  assert (Hin : In c (rev (c :: s))) by (apply in_rev; rewrite rev_involutive; now left).
  rewrite (lstrip_nil _ c L Hin) in E. discriminate.
Qed.

Lemma primary_record_meaning (n : Z) (t : str) :
  meaning (primary_record n t) = Py.strip (first_segment DIAMOND t).
Proof. unfold primary_record. cbn [meaning]. now rewrite split_hd. Qed.

Lemma primary_record_no_tag (n : Z) (content : str) :
  has_tag (meaning (primary_record n (clean content))) = false.
Proof.
  rewrite primary_record_meaning. apply strip_no_tag.
  pose proof (clean_no_tag content) as H.
  destruct (first_segment_prefix DIAMOND (clean content)) as [b E].
  rewrite E in H. now apply has_tag_app in H.
Qed.

Lemma primary_record_collapsed (n : Z) (content : str) :
  collapsed (meaning (primary_record n (clean content))) = true.
Proof.
  rewrite primary_record_meaning. apply strip_collapsed.
  pose proof (clean_collapsed content) as H.
  destruct (first_segment_prefix DIAMOND (clean content)) as [b E].
  rewrite E in H. now apply collapsed_app in H.
Qed.

Lemma primary_record_empty_meaning (n : Z) (content : str) :
  li_qualifies (clean content) = true ->
  (meaning (primary_record n (clean content)) = []
   <-> hd_error (clean content) = Some DIAMOND).
Proof.
  intros Q. rewrite primary_record_meaning.
  destruct (clean content) as [|c t] eqn:E; [discriminate|].
  pose proof (clean_head content E) as Hc.
  cbn [first_segment hd_error].
  destruct (N.eqb_spec c DIAMOND) as [->|Hne].
  - split; reflexivity.
  - split; intros H.
    + now apply strip_cons_nonempty in H.
    + congruence.
Qed.

Lemma numbered_In (r : DefinitionRecord) (ts : list str) (n : Z) :
  In r (numbered n ts) -> exists k t, In t ts /\ r = primary_record k t.
Proof.
  revert n; induction ts as [|t ts IH]; intros n; [intros []|].
  cbn [numbered]. intros [<-|H].
  - exists n, t. split; [now left|reflexivity].
  - destruct (IH _ H) as (k & u & Hu & ->). exists k, u. split; [now right|reflexivity].
Qed.

Lemma accepted_In (t : str) (items : list str) :
  In t (accepted items) ->
  exists li_content,
    In li_content items /\ t = clean li_content /\ li_qualifies t = true.
Proof.
  unfold accepted. intros H. apply in_map_iff in H as (li & <- & H).
  apply filter_In in H as [H Q]. now exists li.
Qed.

Lemma fallback_result_In (r : DefinitionRecord) (html : str) :
  In r (fallback_result html) ->
  exists p_content,
    In p_content (scanned_paragraphs html)
    /\ p_qualifies (clean p_content) = true
    /\ r = fallback_record (clean p_content).
Proof.
  unfold fallback_result.
  destruct (find _ (scanned_paragraphs html)) as [p|] eqn:F; [|intros []].
  intros [<-|[]]. apply find_some in F as [Hin Q]. now exists p.
Qed.

Lemma Ok_inj (A : Type) (a b : A) : Ok a = Ok b -> a = b.
Proof. congruence. Qed.

Lemma In_firstn (A : Type) (n : nat) (l : list A) (x : A) :
  In x (firstn n l) -> In x l.
Proof.
  intros H. rewrite <- (firstn_skipn n l). apply in_or_app. now left.
Qed.

(** Every returned record is built from a cleaned list item of the section
    that passed the primary filter, or from a cleaned paragraph that passed
    the fallback filter. *)
Lemma record_provenance (html word : str) (defs : list DefinitionRecord)
    (r : DefinitionRecord) :
  parse_definitions html word = Ok defs -> In r defs ->
  (exists k li_content,
      li_qualifies (clean li_content) = true
      /\ r = primary_record k (clean li_content))
  \/ (exists p_content,
        p_qualifies (clean p_content) = true
        /\ r = fallback_record (clean p_content)).
Proof.
  rewrite parse_definitions_spec. intros H Hin.
  apply Ok_inj in H. subst defs. apply In_firstn in Hin.
  destruct (primary_records html) as [|r0 rs] eqn:P.
  - right. apply fallback_result_In in Hin as (p & _ & Q & ->). now exists p.
  - left. rewrite <- P in Hin. unfold primary_records in Hin.
    destruct (Re.search section_re html) as [m|]; [|destruct Hin].
    apply numbered_In in Hin as (k & t & Ht & ->).
    apply accepted_In in Ht as (li & _ & -> & Q). now exists k, li.
Qed.

(** ** Texts without tags and without double spaces *)




Lemma record_meaning_clean (html word : str) (defs : list DefinitionRecord)
    (r : DefinitionRecord) :
  parse_definitions html word = Ok defs -> In r defs ->
  has_tag (meaning r) = false /\ collapsed (meaning r) = true.
Proof.
  intros H Hin.
  destruct (@record_provenance html word defs r H Hin)
    as [(k & li & _ & ->)|(p & _ & ->)].
  - split; [apply primary_record_no_tag|apply primary_record_collapsed].
  - split; [apply clean_no_tag|apply clean_collapsed].
Qed.

Lemma p_qualifies_bounds (t : str) :
  p_qualifies t = true -> 30 < length t < 300.
Proof.
  unfold p_qualifies. intros H. apply andb_true_iff in H as [H1 H2].
  apply Nat.ltb_lt in H1, H2. lia.
Qed.

Lemma li_qualifies_bounds (t : str) :
  li_qualifies t = true -> 10 < length t < 500.
Proof.
  unfold li_qualifies. intros H. apply andb_true_iff in H as [H1 H2].
  apply Nat.ltb_lt in H1, H2. lia.
Qed.

(** * Main properties *)

(** ** Meaning strings *)

(** An item whose cleaned text begins with the separator glyph passes the
    length filter and yields a record whose [meaning] is empty. *)
Lemma leading_separator_empty_meaning :
  parse_definitions leading_separator_markup [] =
  Ok [{| id := 1; meaning := []; partOfSpeech := PRIMARY_LABEL;
         examples := [lit "Example one here"] |}].
Proof. vm_compute. reflexivity. Qed.

(** C1, as the code has it: every returned record has a [meaning] without
    tags (no [<], one or more characters other than [>], then [>]) and with
    its whitespace collapsed (the only whitespace characters are single
    spaces, never two in a row).  A fallback record has a [meaning] of 31
    to 299 characters; a primary record has as [meaning] the trimmed text
    before the first separator of a cleaned item of 11 to 499 characters,
    which is empty exactly when that cleaned item begins with the
    separator. *)
Theorem meaning_invariant (html word : str) (defs : list DefinitionRecord)
    (r : DefinitionRecord) :
  parse_definitions html word = Ok defs -> In r defs ->
  has_tag (meaning r) = false
  /\ collapsed (meaning r) = true
  /\ ((partOfSpeech r = [] /\ 30 < length (meaning r) < 300)
      \/ (partOfSpeech r = PRIMARY_LABEL
          /\ exists li_content,
               10 < length (clean li_content) < 500
               /\ meaning r = Py.strip (first_segment DIAMOND (clean li_content))
               /\ (meaning r = [] <-> hd_error (clean li_content) = Some DIAMOND))).
Proof.
  intros H Hin.
  destruct (@record_meaning_clean html word defs r H Hin) as [T C].
  repeat split; [exact T|exact C|].
  destruct (@record_provenance html word defs r H Hin)
    as [(k & li & Q & ->)|(p & Q & ->)].
  - right. split; [reflexivity|]. exists li.
    split; [now apply li_qualifies_bounds|].
    split; [apply primary_record_meaning|].
    now apply primary_record_empty_meaning.
  - left. split; [reflexivity|]. now apply p_qualifies_bounds.
Qed.

Lemma meaning_invariant_witness :
  parse_definitions example_markup [] = Ok [example_record]
  /\ In example_record [example_record]
  /\ has_tag (meaning example_record) = false
  /\ collapsed (meaning example_record) = true.
Proof.
  assert (H : parse_definitions example_markup [] = Ok [example_record])
    by (vm_compute; reflexivity).
  assert (Hin : In example_record [example_record]) by (left; reflexivity).
  destruct (@meaning_invariant example_markup [] [example_record]
              example_record H Hin) as (T & C & _).
  split; [exact H|]. split; [exact Hin|]. split; [exact T|exact C].
Defined.




(** ** Number of records *)

(** A well-formed section whose only item is too short yields no primary
    record; the fallback path then returns one record, although no list
    item passes the length filter. *)
Lemma short_item_fallback_count :
  Re.search section_re short_item_markup =
    Some {| Re.m_len := 65; Re.m_group := lit "<ol><li>short</li></ol>" |}
  /\ qualifying_items (lit "<ol><li>short</li></ol>") = []
  /\ parse_definitions short_item_markup [] = Ok [fallback_record paragraph35].
Proof. vm_compute. repeat split; reflexivity. Qed.

(** C2, as the code has it: when the markup has a section-1 block, at most
    15 list items are looked at (5 of each of 3 lists); if [q] of them pass
    the length filter and [q] is not 0, exactly [min 10 q] records are
    returned; if [q] is 0 the result is that of the fallback path, which
    has one record or none. *)
Theorem record_count (html word : str) (section_match : Re.rmatch) :
  Re.search section_re html = Some section_match ->
  let q := length (qualifying_items (Re.m_group section_match)) in
  q <= 15
  /\ length (fallback_result html) <= 1
  /\ exists defs,
       parse_definitions html word = Ok defs
       /\ length defs =
          match q with
          | O => length (fallback_result html)
          | S _ => Nat.min 10 q
          end.
Proof.
  intros S q. split; [apply qualifying_items_length|].
  assert (F : length (fallback_result html) <= 1).
  { unfold fallback_result. destruct (find _ _); simpl; lia. }
  split; [exact F|].
  eexists. split; [apply parse_definitions_spec|].
  assert (L : length (primary_records html) = q).
  { unfold primary_records. rewrite S, numbered_length, accepted_length.
    reflexivity. }
  destruct (primary_records html) as [|r rs] eqn:P.
  - simpl in L. rewrite <- L. rewrite firstn_all2 by lia. reflexivity.
  - rewrite length_firstn, L. simpl in L. rewrite <- L. reflexivity.
Qed.

Lemma record_count_witness :
  Re.search section_re example_markup =
    Some {| Re.m_len := 99;
            Re.m_group := skipn 32 (firstn 89 example_markup) |}
  /\ exists defs,
       parse_definitions example_markup [] = Ok defs /\ length defs = 1.
Proof.
  assert (S : Re.search section_re example_markup =
              Some {| Re.m_len := 99;
                      Re.m_group := skipn 32 (firstn 89 example_markup) |})
    by (vm_compute; reflexivity).
  split; [exact S|].
  destruct (@record_count example_markup [] _ S) as (_ & _ & defs & H & L).
  exists defs. split; [exact H|]. rewrite L. vm_compute. reflexivity.
Defined.

(** Three lists of five items each: fifteen items pass the filter and ten
    records are returned. *)
Example fifteen_items_ten_records :
  length (qualifying_items
            (concat (repeat (ol_block 5 (lit "A short meaning")) 3))) = 15
  /\ exists defs,
       parse_definitions (lists_markup 3 5 (lit "A short meaning")) [] = Ok defs
       /\ length defs = 10
       /\ map id defs = [1; 2; 3; 4; 5; 6; 7; 8; 9; 10]%Z.
Proof. split; [vm_compute; reflexivity|]. eexists. vm_compute. repeat split. Qed.

(** Only five items of a list and three lists of a section are looked at. *)
Example scan_limits :
  length (scanned_items (concat (repeat (ol_block 7 (lit "A short meaning")) 4)))
  = 15.
Proof. vm_compute. reflexivity. Qed.

(** C4: the returned list never has more than 10 records. *)
Theorem result_length_at_most_10 (html word : str)
    (defs : list DefinitionRecord) :
  parse_definitions html word = Ok defs -> length defs <= 10.
Proof.
  rewrite parse_definitions_spec. intros H. apply Ok_inj in H. subst defs.
  apply firstn_le_length.
Qed.

Lemma result_length_at_most_10_witness :
  exists defs,
    parse_definitions (lists_markup 3 5 (lit "A short meaning")) [] = Ok defs
    /\ length defs <= 10.
Proof.
  destruct (parse_definitions (lists_markup 3 5 (lit "A short meaning")) [])
    as [defs|e] eqn:H; [|vm_compute in H; discriminate H].
  exists defs. split; [reflexivity|].
  exact (@result_length_at_most_10 _ _ defs H).
Defined.

(** ** The fallback path *)

Lemma primary_empty (html : str) (st : pstate) :
  primary html = Ok st -> fst st = [] -> primary_records html = [].
Proof.
  rewrite primary_spec. intros H. apply Ok_inj in H. subst st. trivial.
Qed.

(** C3: when the primary path produced no record, only the first 3
    paragraph blocks of the document are looked at; the first of them whose
    cleaned length is strictly between 30 and 300 gives the only record, of
    id 1, with an empty [partOfSpeech] and no examples; if there is none the
    result is empty. *)
Theorem fallback_single_record (html word : str) (st : pstate) :
  primary html = Ok st -> fst st = [] ->
  parse_definitions html word =
  Ok match find (fun p_content =>
                   (30 <? length (clean p_content))
                   && (length (clean p_content) <? 300))
             (firstn 3 (Re.findall p_re html)) with
     | Some p_content =>
         [{| id := 1; meaning := clean p_content; partOfSpeech := [];
             examples := [] |}]
     | None => []
     end.
Proof.
  intros H E. rewrite parse_definitions_spec, (primary_empty html H E).
  f_equal. unfold fallback_result, scanned_paragraphs, p_qualifies, fallback_record.
  destruct (find _ _); reflexivity.
Qed.

Lemma fallback_single_record_witness :
  primary (one_paragraph_markup paragraph35) = Ok ([], 1%Z)
  /\ length paragraph35 = 35
  /\ parse_definitions (one_paragraph_markup paragraph35) [] =
     Ok [{| id := 1; meaning := paragraph35; partOfSpeech := [];
            examples := [] |}].
Proof.
  assert (H : primary (one_paragraph_markup paragraph35) = Ok ([], 1%Z))
    by (vm_compute; reflexivity).
  split; [exact H|]. split; [reflexivity|].
  rewrite (@fallback_single_record _ [] _ H eq_refl).
  vm_compute. reflexivity.
Defined.

(** Four qualifying paragraphs: one record.  A qualifying paragraph in
    fourth position only: no record. *)
Example fallback_first_of_many :
  parse_definitions
    (concat (repeat (one_paragraph_markup paragraph35) 4)) [] =
  Ok [fallback_record paragraph35].
Proof. vm_compute. reflexivity. Qed.

Example fallback_fourth_ignored :
  parse_definitions
    (concat (repeat (one_paragraph_markup (lit "too short")) 3)
       ++ one_paragraph_markup paragraph35) [] = Ok [].
Proof. vm_compute. reflexivity. Qed.

(** ** The length filters *)

(** C5: both filters are strict at both ends.  A list item whose cleaned
    text has exactly 10 or exactly 500 characters adds no record, and a
    paragraph whose cleaned text has exactly 30 or exactly 300 characters is
    passed over by the fallback loop. *)
Theorem length_filters_strict (st : pstate) (li_content p_content : str)
    (rest : list str) :
  length (clean li_content) = 10 \/ length (clean li_content) = 500 ->
  length (clean p_content) = 30 \/ length (clean p_content) = 300 ->
  li_body st li_content = Ok st
  /\ p_loop (p_content :: rest) st = p_loop rest st.
Proof.
  intros Hli Hp. destruct st as [defs n]. split.
  - unfold li_body. destruct Hli as [-> | ->]; reflexivity.
  - cbn [p_loop]. destruct Hp as [-> | ->]; reflexivity.
Qed.

Lemma length_filters_strict_witness :
  length (clean (lit "0123456789")) = 10
  /\ length (clean (lit "012345678901234567890123456789")) = 30
  /\ li_body ([], 1%Z) (lit "0123456789") = Ok ([], 1%Z)
  /\ p_loop [lit "012345678901234567890123456789"] ([], 1%Z) = ([], 1%Z).
Proof.
  assert (Hli : length (clean (lit "0123456789")) = 10) by (vm_compute; reflexivity).
  assert (Hp : length (clean (lit "012345678901234567890123456789")) = 30)
    by (vm_compute; reflexivity).
  split; [exact Hli|]. split; [exact Hp|].
  exact (@length_filters_strict ([], 1%Z) _ _ [] (or_introl Hli) (or_introl Hp)).
Defined.

(** The bounds on whole documents: items of 10 and 500 characters are
    dropped, items of 11 and 499 characters are kept. *)
Example item_bounds :
  parse_definitions (one_item_markup (repeat 97%N 10)) [] = Ok []
  /\ parse_definitions (one_item_markup (repeat 97%N 500)) [] = Ok []
  /\ (exists r, parse_definitions (one_item_markup (repeat 97%N 11)) [] = Ok [r])
  /\ (exists r, parse_definitions (one_item_markup (repeat 97%N 499)) [] = Ok [r]).
Proof.
  split; [vm_compute; reflexivity|]. split; [vm_compute; reflexivity|].
  split; eexists; vm_compute; reflexivity.
Qed.

(** Paragraphs of 30 and 300 characters are dropped, paragraphs of 31 and
    299 characters are kept. *)
Example paragraph_bounds :
  parse_definitions (one_paragraph_markup (repeat 97%N 30)) [] = Ok []
  /\ parse_definitions (one_paragraph_markup (repeat 97%N 300)) [] = Ok []
  /\ (exists r, parse_definitions (one_paragraph_markup (repeat 97%N 31)) [] = Ok [r])
  /\ (exists r, parse_definitions (one_paragraph_markup (repeat 97%N 299)) [] = Ok [r]).
Proof.
  split; [vm_compute; reflexivity|]. split; [vm_compute; reflexivity|].
  split; eexists; vm_compute; reflexivity.
Qed.

(** ** The example of the specification *)

(** C6: on the markup of the example, one record is returned: id 1, the
    meaning [A short meaning], the fixed label, and the two examples. *)
Theorem example_one_record :
  parse_definitions example_markup [] =
  Ok [{| id := 1;
         meaning := lit "A short meaning";
         partOfSpeech := PRIMARY_LABEL;
         examples := [lit "Example one"; lit "Example two"] |}].
Proof. vm_compute. reflexivity. Qed.

(** The result is the same for any queried word. *)
Example example_one_record_any_word (word : str) :
  parse_definitions example_markup word = Ok [example_record].
Proof. vm_compute. reflexivity. Qed.

(** ** Totality *)

Lemma primary_record_examples (n : Z) (t : str) :
  length (examples (primary_record n t)) <= 2.
Proof. unfold primary_record. cbn [examples]. apply firstn_le_length. Qed.

(** C10: on every markup and word the extraction returns a list and raises
    nothing; splitting on the separator always gives a first segment, so the
    index 0 is always defined; and no record has more than 2 examples. *)
Theorem parse_definitions_total (html word : str) :
  (exists defs,
      parse_definitions html word = Ok defs
      /\ forall r, In r defs -> length (examples r) <= 2)
  /\ (forall clean_text : str,
         exists first others,
           Py.split DIAMOND clean_text = first :: others
           /\ py_index (Py.split DIAMOND clean_text) 0 = Ok first).
Proof.
  split.
  - destruct (parse_definitions html word) as [defs|e] eqn:H.
    + exists defs. split; [reflexivity|]. intros r Hin.
      destruct (@record_provenance html word defs r H Hin)
        as [(k & li & _ & ->)|(p & _ & ->)].
      * apply primary_record_examples.
      * cbn. lia.
    + rewrite parse_definitions_spec in H. discriminate H.
  - intros t. destruct (split_nonempty DIAMOND t) as (p & ps & E).
    exists p, ps. rewrite E. split; reflexivity.
Qed.

(** The empty markup gives the empty list. *)
Example empty_markup : parse_definitions [] [] = Ok [].
Proof. reflexivity. Qed.

(** Of four examples long enough, two are kept; short ones are dropped. *)
Example examples_capped :
  exists r,
    parse_definitions
      (one_item_markup
         (lit "meaning" ++ [DIAMOND] ++ lit "tiny" ++ [DIAMOND]
            ++ lit "first example" ++ [DIAMOND] ++ lit "second example"
            ++ [DIAMOND] ++ lit "third example")) [] = Ok [r]
    /\ examples r = [lit "first example"; lit "second example"].
Proof. eexists. vm_compute. split; reflexivity. Qed.

(** ** The handler *)

Lemma get_is_not_options : str_eqb (lit "GET") (lit "OPTIONS") = false.
Proof. reflexivity. Qed.

Lemma get_is_get : str_eqb (lit "GET") (lit "GET") = true.
Proof. reflexivity. Qed.

Lemma truthy_nonempty (s : str) : s <> [] -> Py.truthy s = true.
Proof. destruct s; [congruence|reflexivity]. Qed.

(** The handler on a GET request with a word, once the page is fetched and
    parsed. *)
Lemma handler_get (fetch : str -> result str) (event : Event)
    (html : str) (defs : list DefinitionRecord) :
  let params :=
    match queryStringParameters event with Some d => d | None => [] end in
  let word := Py.strip (dict_get params (lit "word") []) in
  httpMethod event = Some (lit "GET") \/ httpMethod event = None ->
  word <> [] ->
  fetch word = Ok html ->
  parse_definitions html word = Ok defs ->
  handler fetch event =
  match defs with
  | [] => json_response 404 (ErrorBody MSG_NOT_FOUND)
  | _ :: _ => json_response 200 (DefinitionsBody word defs)
  end.
Proof.
  intros params word M W F P. unfold handler, fetch_and_parse.
  fold params. fold word.
  replace (match httpMethod event with Some m => m | None => lit "GET" end)
    with (lit "GET") by (destruct M as [-> | ->]; reflexivity).
  rewrite get_is_not_options, get_is_get. cbn [negb].
  rewrite (truthy_nonempty W). cbn [negb].
  rewrite F. cbn [bind]. rewrite P. cbn [bind].
  destruct defs; reflexivity.
Qed.

(** C8: for a GET request with a non-empty trimmed word whose page is
    fetched, the handler answers 404 with an error body exactly when the
    extraction returns no record, and otherwise answers 200 with a body
    holding the word and the records. *)
Theorem handler_not_found_iff_empty (fetch : str -> result str) (event : Event)
    (html : str) (defs : list DefinitionRecord) :
  let params :=
    match queryStringParameters event with Some d => d | None => [] end in
  let word := Py.strip (dict_get params (lit "word") []) in
  httpMethod event = Some (lit "GET") \/ httpMethod event = None ->
  word <> [] ->
  fetch word = Ok html ->
  parse_definitions html word = Ok defs ->
  (statusCode (handler fetch event) = 404%Z <-> defs = [])
  /\ (defs = [] ->
      exists text, body (handler fetch event) = ErrorBody text)
  /\ (defs <> [] ->
      statusCode (handler fetch event) = 200%Z
      /\ body (handler fetch event) = DefinitionsBody word defs).
Proof.
  intros params word M W F P.
  rewrite (@handler_get fetch event html defs M W F P).
  fold params. fold word.
  destruct defs as [|r rs]; cbn [json_response statusCode body].
  - split; [split; reflexivity|]. split; [|congruence].
    intros _. now exists MSG_NOT_FOUND.
  - split; [split; intros H; discriminate H|]. split; [intros H; discriminate H|].
    intros _. split; reflexivity.
Qed.

Lemma handler_not_found_iff_empty_witness :
  Py.strip (dict_get [(lit "word", lit " word ")] (lit "word") []) = lit "word"
  /\ parse_definitions example_markup (lit "word") = Ok [example_record]
  /\ statusCode (handler (fun _ => Ok example_markup) (get_event (lit " word ")))
     = 200%Z
  /\ body (handler (fun _ => Ok example_markup) (get_event (lit " word ")))
     = DefinitionsBody (lit "word") [example_record].
Proof.
  assert (P : parse_definitions example_markup (lit "word") = Ok [example_record])
    by (vm_compute; reflexivity).
  split; [vm_compute; reflexivity|]. split; [exact P|].
  refine (proj2 (proj2
    (@handler_not_found_iff_empty (fun _ => Ok example_markup)
       (get_event (lit " word ")) example_markup [example_record]
       (or_introl eq_refl) _ eq_refl P)) _).
  - vm_compute. discriminate.
  - discriminate.
Defined.

(** Markup without a section and without a qualifying paragraph: 404. *)
Example handler_not_found :
  handler (fun _ => Ok (one_paragraph_markup (lit "too short")))
    (get_event (lit "word"))
  = json_response 404 (ErrorBody MSG_NOT_FOUND).
Proof. vm_compute. reflexivity. Qed.

(** The other answers of the handler. *)
Example handler_statuses :
  statusCode (handler (fun _ => Ok example_markup)
                {| httpMethod := Some (lit "OPTIONS");
                   queryStringParameters := None |}) = 200%Z
  /\ statusCode (handler (fun _ => Ok example_markup)
                   {| httpMethod := Some (lit "POST");
                      queryStringParameters := None |}) = 405%Z
  /\ statusCode (handler (fun _ => Ok example_markup)
                   {| httpMethod := None; queryStringParameters := None |})
     = 400%Z
  /\ statusCode (handler (fun _ => Raise (FetchError (lit "timed out")))
                   (get_event (lit "word"))) = 500%Z.
Proof. vm_compute. repeat split; reflexivity. Qed.

(** * Further properties of the extraction *)

(** ** Ids and order *)

Lemma numbered_nth (ts : list str) (n : Z) (i : nat) (r : DefinitionRecord) :
  nth_error (numbered n ts) i = Some r -> id r = (n + Z.of_nat i)%Z.
Proof.
  revert n i; induction ts as [|t ts IH]; intros n i; [destruct i; discriminate|].
  destruct i as [|i]; cbn [numbered nth_error].
  - intros [= <-]. cbn [primary_record id]. lia.
  - intros H. rewrite (IH _ _ H). lia.
Qed.

Lemma nth_firstn_some (A : Type) (n i : nat) (l : list A) (x : A) :
  nth_error (firstn n l) i = Some x -> nth_error l i = Some x.
Proof.
  rewrite nth_error_firstn. destruct (i <? n); [trivial|discriminate].
Qed.

(** X1: the ids count the records from 1, in the order of the list: the record
    at position [i] (from 0) has id [i + 1]. *)
Theorem ids_sequential (html word : str) (defs : list DefinitionRecord)
    (i : nat) (r : DefinitionRecord) :
  parse_definitions html word = Ok defs ->
  nth_error defs i = Some r ->
  id r = (Z.of_nat i + 1)%Z.
Proof.
  rewrite parse_definitions_spec. intros H N. apply Ok_inj in H. subst defs.
  apply nth_firstn_some in N.
  destruct (primary_records html) as [|r0 rs] eqn:P.
  - unfold fallback_result in N. destruct (find _ _); [|destruct i; discriminate].
    destruct i as [|[|i]]; try discriminate. injection N as <-. reflexivity.
  - rewrite <- P in N. unfold primary_records in N.
    destruct (Re.search section_re html); [|destruct i; discriminate].
    apply numbered_nth in N. lia.
Qed.

Lemma ids_sequential_witness :
  parse_definitions (lists_markup 1 2 (lit "A short meaning")) [] =
    Ok [primary_record 1 (lit "A short meaning");
        primary_record 2 (lit "A short meaning")]
  /\ id (primary_record 2 (lit "A short meaning")) = 2%Z.
Proof.
  assert (H : parse_definitions (lists_markup 1 2 (lit "A short meaning")) [] =
              Ok [primary_record 1 (lit "A short meaning");
                  primary_record 2 (lit "A short meaning")])
    by (vm_compute; reflexivity).
  split; [exact H|].
  exact (@ids_sequential _ _ _ 1 _ H eq_refl).
Defined.

(** X2: when the section has a qualifying item, the result is the list of the
    records of the qualifying items among the scanned ones, in the order of
    the document, with ids from 1, cut after the tenth. *)
Theorem primary_result_in_document_order (html word : str)
    (section_match : Re.rmatch) :
  Re.search section_re html = Some section_match ->
  qualifying_items (Re.m_group section_match) <> [] ->
  parse_definitions html word =
  Ok (firstn 10
        (numbered 1 (map clean (qualifying_items (Re.m_group section_match))))).
Proof.
  intros S Q. rewrite parse_definitions_spec. f_equal.
  unfold primary_records. rewrite S.
  change (accepted (scanned_items (Re.m_group section_match)))
    with (map clean (qualifying_items (Re.m_group section_match))).
  destruct (qualifying_items (Re.m_group section_match)); [congruence|].
  reflexivity.
Qed.

Lemma primary_result_in_document_order_witness :
  parse_definitions example_markup [] =
  Ok (firstn 10
        (numbered 1
           (map clean (qualifying_items (skipn 32 (firstn 89 example_markup)))))).
Proof.
  refine (@primary_result_in_document_order example_markup []
            {| Re.m_len := 99;
               Re.m_group := skipn 32 (firstn 89 example_markup) |} _ _).
  - vm_compute. reflexivity.
  - vm_compute. discriminate.
Defined.

(** X3: the two paths never mix: either every record carries the label of the
    primary path, or the result is empty or one fallback record, of id 1,
    with an empty label and no examples. *)
Theorem paths_do_not_mix (html word : str) (defs : list DefinitionRecord) :
  parse_definitions html word = Ok defs ->
  (defs <> [] /\ forall r, In r defs -> partOfSpeech r = PRIMARY_LABEL)
  \/ defs = []
  \/ exists r, defs = [r] /\ id r = 1%Z /\ partOfSpeech r = [] /\ examples r = [].
Proof.
  rewrite parse_definitions_spec. intros H. apply Ok_inj in H. subst defs.
  destruct (primary_records html) as [|r0 rs] eqn:P.
  - right. unfold fallback_result. destruct (find _ _) as [p|]; [right|now left].
    exists (fallback_record (clean p)). now repeat split.
  - left. split; [discriminate|]. intros r Hin. apply In_firstn in Hin.
    rewrite <- P in Hin. unfold primary_records in Hin.
    destruct (Re.search section_re html); [|destruct Hin].
    apply numbered_In in Hin as (k & t & _ & ->). reflexivity.
Qed.

Lemma paths_do_not_mix_witness :
  parse_definitions short_item_markup [] = Ok [fallback_record paragraph35]
  /\ partOfSpeech (fallback_record paragraph35) = [].
Proof.
  assert (H : parse_definitions short_item_markup [] =
              Ok [fallback_record paragraph35]) by (vm_compute; reflexivity).
  split; [exact H|].
  destruct (@paths_do_not_mix _ _ _ H) as [[_ A]|[A|(r & E & _ & A & _)]].
  - discriminate (A _ (or_introl eq_refl)).
  - discriminate A.
  - injection E as <-. exact A.
Defined.

(** ** Trimmed texts, segments and examples *)

Lemma lstrip_idem (s : str) : Py.lstrip (Py.lstrip s) = Py.lstrip s.
Proof.
  destruct (Py.lstrip s) as [|c t] eqn:E; [reflexivity|].
  cbn [Py.lstrip]. now rewrite (lstrip_head s E).
Qed.

Lemma rstrip_idem (s : str) : Py.rstrip (Py.rstrip s) = Py.rstrip s.
Proof. unfold Py.rstrip. now rewrite rev_involutive, lstrip_idem. Qed.

Lemma strip_idem (s : str) : Py.strip (Py.strip s) = Py.strip s.
Proof.
  assert (L : Py.lstrip (Py.strip s) = Py.strip s).
  { destruct (Py.strip s) as [|c t] eqn:E; [reflexivity|].
    cbn [Py.lstrip]. now rewrite (strip_head s E). }
  unfold Py.strip at 1. rewrite L. unfold Py.strip. apply rstrip_idem.
Qed.

Lemma infix_length (s a y b : str) : s = a ++ y ++ b -> length y <= length s.
Proof. intros ->. rewrite !length_app. lia. Qed.

Lemma infix_not_in (s a y b : str) (c : char) :
  s = a ++ y ++ b -> ~ In c s -> ~ In c y.
Proof.
  intros -> H Hin. apply H. apply in_or_app. right. apply in_or_app. now left.
Qed.

Lemma strip_length (s : str) : length (Py.strip s) <= length s.
Proof. destruct (strip_infix s) as (a & b & E). exact (@infix_length _ _ _ _ E). Qed.

Lemma strip_not_in (s : str) (c : char) : ~ In c s -> ~ In c (Py.strip s).
Proof. destruct (strip_infix s) as (a & b & E). exact (@infix_not_in _ _ _ _ _ E). Qed.

Lemma split_acc_segments (sep : char) (s acc seg : str) :
  In seg (Py.split_acc sep acc s) ->
  (~ In sep acc -> ~ In sep seg)
  /\ exists a b, rev acc ++ s = a ++ seg ++ b.
Proof.
  revert acc; induction s as [|c s IH]; intros acc; cbn [Py.split_acc].
  - intros [<-|[]]. split.
    + intros H Hin. apply H. now apply in_rev.
    + exists [], []. reflexivity.
  - destruct (N.eqb_spec c sep) as [->|Hne].
    + intros [<-|Hin].
      * split; [intros H Hin; apply H; now apply in_rev|].
        exists [], (sep :: s). reflexivity.
      * destruct (IH [] Hin) as [Hs (a & b & E)]. split; [intros _; now apply Hs|].
        cbn [rev app] in E. rewrite E.
        exists (rev acc ++ sep :: a), b. rewrite <- app_assoc. reflexivity.
    + intros Hin. destruct (IH (c :: acc) Hin) as [Hs (a & b & E)]. split.
      * intros H. apply Hs. intros [->|H']; [congruence|now apply H].
      * exists a, b. rewrite <- E. cbn [rev]. now rewrite <- app_assoc.
Qed.

Lemma split_segments (sep : char) (s seg : str) :
  In seg (Py.split sep s) ->
  ~ In sep seg /\ exists a b, s = a ++ seg ++ b.
Proof.
  intros Hin. destruct (@split_acc_segments sep s [] seg Hin) as [Hs E].
  split; [apply Hs; intros []|exact E].
Qed.

Lemma In_skipn (A : Type) (n : nat) (l : list A) (x : A) :
  In x (skipn n l) -> In x l.
Proof.
  intros H. rewrite <- (firstn_skipn n l). apply in_or_app. now right.
Qed.

Lemma has_tag_infix (s a y b : str) :
  s = a ++ y ++ b -> has_tag s = false -> has_tag y = false.
Proof.
  intros -> H. apply has_tag_app in H as [_ H]. now apply has_tag_app in H.
Qed.

Lemma collapsed_infix (s a y b : str) :
  s = a ++ y ++ b -> collapsed s = true -> collapsed y = true.
Proof.
  intros -> H. apply collapsed_app in H as [_ H]. now apply collapsed_app in H.
Qed.

Lemma primary_record_example (n : Z) (content e : str) :
  li_qualifies (clean content) = true ->
  In e (examples (primary_record n (clean content))) ->
  5 < length e < 500
  /\ ~ In DIAMOND e
  /\ Py.strip e = e
  /\ has_tag e = false
  /\ collapsed e = true.
Proof.
  intros Q Hin. unfold primary_record in Hin. cbn [examples] in Hin.
  apply In_firstn in Hin. apply in_map_iff in Hin as (ex & <- & Hin).
  apply filter_In in Hin as [Hin F]. apply In_skipn in Hin.
  apply andb_true_iff in F as [_ F]. apply Nat.ltb_lt in F.
  destruct (@split_segments DIAMOND (clean content) ex Hin) as [Hs (a & b & E)].
  apply li_qualifies_bounds in Q.
  pose proof (@infix_length _ _ _ _ E). pose proof (strip_length ex).
  split; [lia|]. split; [now apply strip_not_in|]. split; [apply strip_idem|].
  split.
  - apply strip_no_tag. exact (@has_tag_infix _ _ _ _ E (clean_no_tag content)).
  - apply strip_collapsed. exact (@collapsed_infix _ _ _ _ E (clean_collapsed content)).
Qed.

(** X4: every example of every record has between 6 and 499 characters, has no
    whitespace at either end, does not contain the separator glyph, has no
    tag and has its whitespace collapsed. *)
Theorem examples_wellformed (html word : str) (defs : list DefinitionRecord)
    (r : DefinitionRecord) (e : str) :
  parse_definitions html word = Ok defs -> In r defs -> In e (examples r) ->
  5 < length e < 500
  /\ ~ In DIAMOND e
  /\ Py.strip e = e
  /\ has_tag e = false
  /\ collapsed e = true.
Proof.
  intros H Hin He.
  destruct (@record_provenance html word defs r H Hin)
    as [(k & li & Q & ->)|(p & _ & ->)].
  - exact (@primary_record_example k li e Q He).
  - destruct He.
Qed.

Lemma examples_wellformed_witness :
  parse_definitions example_markup [] = Ok [example_record]
  /\ In (lit "Example two") (examples example_record)
  /\ ~ In DIAMOND (lit "Example two").
Proof.
  assert (H : parse_definitions example_markup [] = Ok [example_record])
    by (vm_compute; reflexivity).
  assert (He : In (lit "Example two") (examples example_record))
    by (right; left; reflexivity).
  split; [exact H|]. split; [exact He|].
  exact (proj1 (proj2 (@examples_wellformed _ _ _ _ _ H (or_introl eq_refl) He))).
Defined.

Lemma first_segment_not_in (sep : char) (s : str) :
  ~ In sep (first_segment sep s).
Proof.
  induction s as [|c s IH]; [intros []|].
  cbn [first_segment]. destruct (N.eqb_spec c sep) as [->|Hne]; [intros []|].
  intros [->|H]; [congruence|now apply IH].
Qed.

(** X5: every [meaning] has no whitespace at either end and fewer than 500
    characters; the [meaning] of a primary record does not contain the
    separator glyph. *)
Theorem meaning_trimmed (html word : str) (defs : list DefinitionRecord)
    (r : DefinitionRecord) :
  parse_definitions html word = Ok defs -> In r defs ->
  Py.strip (meaning r) = meaning r
  /\ length (meaning r) < 500
  /\ (partOfSpeech r = PRIMARY_LABEL -> ~ In DIAMOND (meaning r)).
Proof.
  intros H Hin.
  destruct (@record_provenance html word defs r H Hin)
    as [(k & li & Q & ->)|(p & Q & ->)].
  - rewrite primary_record_meaning. split; [apply strip_idem|].
    apply li_qualifies_bounds in Q.
    destruct (first_segment_prefix DIAMOND (clean li)) as [b E].
    pose proof (strip_length (first_segment DIAMOND (clean li))).
    assert (length (first_segment DIAMOND (clean li)) <= length (clean li))
      by (rewrite E at 2; rewrite length_app; lia).
    split; [lia|]. intros _. apply strip_not_in, first_segment_not_in.
  - cbn [fallback_record meaning partOfSpeech]. apply p_qualifies_bounds in Q.
    split; [unfold clean; apply strip_idem|]. split; [lia|]. discriminate.
Qed.

Lemma meaning_trimmed_witness :
  parse_definitions example_markup [] = Ok [example_record]
  /\ Py.strip (meaning example_record) = meaning example_record.
Proof.
  assert (H : parse_definitions example_markup [] = Ok [example_record])
    by (vm_compute; reflexivity).
  split; [exact H|].
  exact (proj1 (@meaning_trimmed _ _ _ _ H (or_introl eq_refl))).
Defined.

(** ** Cleaning *)

Lemma tag_sub_id (s : str) : has_tag s = false -> Re.sub tag_re [] s = s.
Proof.
  induction s as [|c s IH]; [reflexivity|].
  cbn [has_tag]. intros H. apply orb_false_iff in H as [T H].
  rewrite tag_sub_cons, T, (IH H). reflexivity.
Qed.

Lemma ws_sub_id (s : str) : collapsed s = true -> Re.sub ws_re [SPACE] s = s.
Proof.
  induction s as [|c s IH]; [reflexivity|].
  cbn [collapsed]. intros H. apply andb_true_iff in H as [H1 H2].
  rewrite ws_sub_cons. destruct (Py.isspace c) eqn:E.
  - cbn [negb orb] in H1. apply andb_true_iff in H1 as [Hc Hs].
    apply N.eqb_eq in Hc. subst c.
    assert (L : Py.lstrip s = s).
    { destruct s as [|x t]; [reflexivity|]. cbn [Py.lstrip].
      apply negb_true_iff in Hs. now rewrite Hs. }
    rewrite L, (IH H2). reflexivity.
  - now rewrite (IH H2).
Qed.

(** X6: cleaning a cleaned text changes nothing. *)
Theorem clean_idempotent (content : str) : clean (clean content) = clean content.
Proof.
  unfold clean at 1.
  rewrite (tag_sub_id (clean content) (clean_no_tag content)).
  rewrite (ws_sub_id (clean content) (clean_collapsed content)).
  unfold clean. apply strip_idem.
Qed.

Lemma tag_sub_length (s : str) : length (Re.sub tag_re [] s) <= length s.
Proof.
  induction s as [s IH] using str_length_ind.
  destruct s as [|c s]; [apply Nat.le_refl|].
  rewrite tag_sub_cons. destruct (tag_starts (c :: s)).
  - destruct s as [|x b]; cbn [tl after_gt length].
    + apply Nat.le_0_l.
    + pose proof (after_gt_length b).
      specialize (IH (after_gt b) ltac:(simpl; lia)). lia.
  - cbn [length]. specialize (IH s ltac:(simpl; lia)). lia.
Qed.

Lemma ws_sub_length (s : str) : length (Re.sub ws_re [SPACE] s) <= length s.
Proof.
  induction s as [s IH] using str_length_ind.
  destruct s as [|c s]; [apply Nat.le_refl|].
  rewrite ws_sub_cons. pose proof (lstrip_length s).
  destruct (Py.isspace c); cbn [length].
  - specialize (IH (Py.lstrip s) ltac:(simpl; lia)). lia.
  - specialize (IH s ltac:(simpl; lia)). lia.
Qed.

Lemma clean_length (content : str) : length (clean content) <= length content.
Proof.
  unfold clean.
  pose proof (strip_length (Re.sub ws_re [SPACE] (Re.sub tag_re [] content))).
  pose proof (ws_sub_length (Re.sub tag_re [] content)).
  pose proof (tag_sub_length content). lia.
Qed.

(** X7: cleaning never lengthens a text, so a list item whose content has at
    most 10 characters adds no record, and a paragraph whose content has at
    most 30 characters is passed over, whatever they contain. *)
Theorem short_blocks_dropped (st : pstate) (li_content p_content : str)
    (rest : list str) :
  length li_content <= 10 -> length p_content <= 30 ->
  li_body st li_content = Ok st
  /\ p_loop (p_content :: rest) st = p_loop rest st.
Proof.
  intros Hli Hp. destruct st as [defs n].
  pose proof (clean_length li_content). pose proof (clean_length p_content).
  split.
  - rewrite li_body_spec. unfold li_qualifies.
    replace (10 <? length (clean li_content)) with false
      by (symmetry; apply Nat.ltb_ge; lia).
    reflexivity.
  - cbn [p_loop].
    replace (30 <? length (clean p_content)) with false
      by (symmetry; apply Nat.ltb_ge; lia).
    reflexivity.
Qed.

Lemma short_blocks_dropped_witness :
  length (lit "<b>hi</b>") <= 10
  /\ length (lit "<i>paragraph text</i>") <= 30
  /\ li_body ([], 1%Z) (lit "<b>hi</b>") = Ok ([], 1%Z)
  /\ p_loop [lit "<i>paragraph text</i>"] ([], 1%Z) = ([], 1%Z).
Proof.
  assert (Hli : length (lit "<b>hi</b>") <= 10) by (vm_compute; lia).
  assert (Hp : length (lit "<i>paragraph text</i>") <= 30) by (vm_compute; lia).
  split; [exact Hli|]. split; [exact Hp|].
  exact (@short_blocks_dropped ([], 1%Z) _ _ [] Hli Hp).
Defined.

(** ** Documents without markup *)

Lemma match_at_needs_lt (p : Re.regex) (s : str) :
  hd_error s <> Some LT ->
  Re.match_at (Re.Atom (Re.CChar LT) Re.One :: p) s = None.
Proof.
  intros H. unfold Re.match_at. cbn [Re.run Re.cls_match].
  destruct s as [|c t]; [reflexivity|].
  destruct (N.eqb_spec c LT) as [->|]; [now destruct H|reflexivity].
Qed.

Lemma search_no_lt (p : Re.regex) (s : str) :
  ~ In LT s -> Re.search (Re.Atom (Re.CChar LT) Re.One :: p) s = None.
Proof.
  induction s as [|c s IH]; intros H.
  - cbn [Re.search]. now rewrite match_at_needs_lt.
  - cbn [Re.search]. rewrite match_at_needs_lt.
    + apply IH. intros Hin. apply H. now right.
    + cbn [hd_error]. intros [= ->]. apply H. now left.
Qed.

Lemma findall_no_lt (p : Re.regex) (s : str) :
  ~ In LT s -> Re.findall (Re.Atom (Re.CChar LT) Re.One :: p) s = [].
Proof.
  unfold Re.findall. induction s as [|c s IH]; intros H.
  - cbn [Re.findall_from]. now rewrite match_at_needs_lt.
  - cbn [Re.findall_from]. rewrite match_at_needs_lt.
    + apply IH. intros Hin. apply H. now right.
    + cbn [hd_error]. intros [= ->]. apply H. now left.
Qed.

Lemma parse_no_lt (html word : str) :
  ~ In LT html -> parse_definitions html word = Ok [].
Proof.
  intros H. rewrite parse_definitions_spec.
  unfold primary_records, fallback_result, scanned_paragraphs.
  change section_re with (Re.Atom (Re.CChar LT) Re.One :: tl section_re).
  change p_re with (Re.Atom (Re.CChar LT) Re.One :: tl p_re).
  rewrite (@search_no_lt _ html H), (@findall_no_lt _ html H). reflexivity.
Qed.

(** X8: a document without any [<] gives no record. *)
Theorem plain_text_no_record (html word : str) :
  ~ In LT html -> parse_definitions html word = Ok [].
Proof. apply parse_no_lt. Qed.

Lemma plain_text_no_record_witness :
  ~ In LT (lit "no markup at all, only a sentence of plain text")
  /\ parse_definitions (lit "no markup at all, only a sentence of plain text") []
     = Ok [].
Proof.
  assert (H : ~ In LT (lit "no markup at all, only a sentence of plain text")).
  { intros Hin. vm_compute in Hin.
    repeat (destruct Hin as [Hin|Hin]; [discriminate Hin|]). exact Hin. }
  split; [exact H|].
  exact (@plain_text_no_record _ [] H).
Defined.

(** * Further properties of the handler *)

Lemma handler_unfold (fetch : str -> result str) (event : Event) :
  handler fetch event =
  if str_eqb (event_method event) (lit "OPTIONS") then
    {| statusCode := 200; headers := cors_headers; body := EmptyBody;
       isBase64Encoded := false |}
  else if negb (str_eqb (event_method event) (lit "GET")) then
    json_response 405 (ErrorBody (lit "Method not allowed"))
  else if negb (Py.truthy (event_word event)) then
    json_response 400 (ErrorBody MSG_WORD_REQUIRED)
  else
    match fetch (event_word event) with
    | Raise e => json_response 500 (ErrorBody (MSG_FETCH_PREFIX ++ exn_message e))
    | Ok html =>
        match parse_definitions html (event_word event) with
        | Raise e =>
            json_response 500 (ErrorBody (MSG_FETCH_PREFIX ++ exn_message e))
        | Ok [] => json_response 404 (ErrorBody MSG_NOT_FOUND)
        | Ok (r :: rs) =>
            json_response 200 (DefinitionsBody (event_word event) (r :: rs))
        end
    end.
Proof.
  unfold handler, fetch_and_parse, event_word, event_raw_word, event_method.
  destruct (str_eqb _ (lit "OPTIONS")); [reflexivity|].
  destruct (negb (str_eqb _ (lit "GET"))); [reflexivity|].
  destruct (negb (Py.truthy _)); [reflexivity|].
  destruct (fetch _) as [html|e]; [|reflexivity]. cbn [bind].
  destruct (parse_definitions html _) as [[|r rs]|e]; reflexivity.
Qed.

Lemma str_eqb_true (a b : str) : str_eqb a b = true <-> a = b.
Proof.
  unfold str_eqb. destruct (list_eq_dec N.eq_dec a b); split; congruence.
Qed.

Lemma parse_definitions_ok (html word : str) :
  exists defs, parse_definitions html word = Ok defs.
Proof. eexists. apply parse_definitions_spec. Qed.

Lemma truthy_false (s : str) : Py.truthy s = false <-> s = [].
Proof. destruct s; cbn [Py.truthy]; split; congruence. Qed.

Lemma lstrip_blank (s : str) :
  (forall c, In c s -> Py.isspace c = true) -> Py.lstrip s = [].
Proof.
  induction s as [|x s IH]; [reflexivity|]. intros H. cbn [Py.lstrip].
  rewrite (H x (or_introl eq_refl)). apply IH. intros c Hc. apply H. now right.
Qed.

Lemma strip_nil_iff (s : str) :
  Py.strip s = [] <-> forall c, In c s -> Py.isspace c = true.
Proof.
  split.
  - unfold Py.strip, Py.rstrip. intros H.
    assert (L : Py.lstrip (rev (Py.lstrip s)) = []).
    { rewrite <- (rev_involutive (Py.lstrip (rev (Py.lstrip s)))), H. reflexivity. }
    assert (E : Py.lstrip s = []).
    { destruct (Py.lstrip s) as [|x t] eqn:Ex; [reflexivity|].
      pose proof (lstrip_head s Ex) as Hx.
      assert (Hin : In x (rev (x :: t))) by (apply in_rev; rewrite rev_involutive; now left).
      rewrite (lstrip_nil _ x L Hin) in Hx. discriminate. }
    intros c. now apply lstrip_nil.
  - intros H. unfold Py.strip. now rewrite (lstrip_blank s H).
Qed.

(** X9: every response carries the permissive cross-origin header, is not
    base64 encoded, and has one of the five status codes. *)
Theorem handler_response_invariant (fetch : str -> result str) (event : Event) :
  In (lit "Access-Control-Allow-Origin", lit "*") (headers (handler fetch event))
  /\ isBase64Encoded (handler fetch event) = false
  /\ In (statusCode (handler fetch event)) [200; 400; 404; 405; 500]%Z.
Proof.
  rewrite handler_unfold.
  destruct (str_eqb _ (lit "OPTIONS")).
  { cbn [headers isBase64Encoded statusCode]. split; [now left|].
    split; [reflexivity|now left]. }
  assert (J : forall status b,
             In status [200; 400; 404; 405; 500]%Z ->
             In (lit "Access-Control-Allow-Origin", lit "*")
               (headers (json_response status b))
             /\ isBase64Encoded (json_response status b) = false
             /\ In (statusCode (json_response status b))
                  [200; 400; 404; 405; 500]%Z).
  { intros status b Hs. cbn [json_response headers isBase64Encoded statusCode].
    split; [right; now left|]. split; [reflexivity|exact Hs]. }
  destruct (negb (str_eqb _ (lit "GET"))); [apply J; cbn; tauto|].
  destruct (negb (Py.truthy _)); [apply J; cbn; tauto|].
  destruct (fetch _) as [html|e]; [|apply J; cbn; tauto].
  destruct (parse_definitions html _) as [[|r rs]|e]; apply J; cbn; tauto.
Qed.

(** X10: the answer is 400 exactly when the method is GET (or missing) and the
    [word] parameter is missing, empty or made of whitespace only. *)
Theorem handler_400_iff_blank_word (fetch : str -> result str) (event : Event) :
  statusCode (handler fetch event) = 400%Z
  <-> event_method event = lit "GET"
      /\ forall c, In c (event_raw_word event) -> Py.isspace c = true.
Proof.
  rewrite handler_unfold. fold (event_word event).
  destruct (str_eqb (event_method event) (lit "OPTIONS")) eqn:EO.
  { apply str_eqb_true in EO. cbn [statusCode]. split; [discriminate|].
    intros [M _]. rewrite M in EO. discriminate EO. }
  destruct (str_eqb (event_method event) (lit "GET")) eqn:EG; cbn [negb].
  2:{ cbn [json_response statusCode]. split; [discriminate|].
      intros [M _]. apply str_eqb_true in M. congruence. }
  apply str_eqb_true in EG.
  destruct (Py.truthy (event_word event)) eqn:T; cbn [negb].
  - assert (N : ~ (forall c, In c (event_raw_word event) -> Py.isspace c = true)).
    { intros B. apply (proj2 (strip_nil_iff _)) in B. unfold event_word in T.
      rewrite B in T. discriminate T. }
    destruct (fetch _) as [html|e];
      [destruct (parse_definitions html _) as [[|r rs]|e]|];
      cbn [json_response statusCode]; (split; [discriminate|tauto]).
  - apply truthy_false in T. unfold event_word in T.
    pose proof (proj1 (strip_nil_iff _) T) as B.
    cbn [json_response statusCode]. tauto.
Qed.

(** X11: the answer is 500 exactly when the method is GET (or missing), the
    trimmed word is not empty and the fetch raises; the body then carries
    the message of the exception after the fixed prefix.  In particular the
    extraction itself never causes a 500. *)
Theorem handler_500_iff_fetch_raises (fetch : str -> result str) (event : Event) :
  (statusCode (handler fetch event) = 500%Z
   <-> event_method event = lit "GET"
       /\ event_word event <> []
       /\ exists e, fetch (event_word event) = Raise e)
  /\ (forall e,
        event_method event = lit "GET" -> event_word event <> [] ->
        fetch (event_word event) = Raise e ->
        body (handler fetch event) = ErrorBody (MSG_FETCH_PREFIX ++ exn_message e)).
Proof.
  rewrite handler_unfold.
  destruct (str_eqb (event_method event) (lit "OPTIONS")) eqn:EO.
  { apply str_eqb_true in EO. cbn [statusCode]. split.
    - split; [discriminate|]. intros [M _]. rewrite M in EO. discriminate EO.
    - intros e M. rewrite M in EO. discriminate EO. }
  destruct (str_eqb (event_method event) (lit "GET")) eqn:EG; cbn [negb].
  2:{ cbn [json_response statusCode]. split.
      - split; [discriminate|]. intros [M _]. apply str_eqb_true in M. congruence.
      - intros e M. apply str_eqb_true in M. congruence. }
  apply str_eqb_true in EG.
  destruct (Py.truthy (event_word event)) eqn:T; cbn [negb].
  2:{ apply truthy_false in T. cbn [json_response statusCode]. split.
      - split; [discriminate|]. intros (_ & W & _). congruence.
      - intros e _ W. congruence. }
  assert (W : event_word event <> []) by (intros E; rewrite E in T; discriminate T).
  destruct (fetch (event_word event)) as [html|e].
  - destruct (parse_definitions_ok html (event_word event)) as [defs P].
    rewrite P. split.
    + destruct defs; cbn [json_response statusCode];
        (split; [discriminate|]); intros (_ & _ & e & E); discriminate E.
    + intros e _ _ E. discriminate E.
  - cbn [json_response statusCode body]. split.
    + split; [intros _|reflexivity]. split; [exact EG|]. split; [exact W|].
      now exists e.
    + intros e' _ _ E. congruence.
Qed.

Lemma handler_defs_length (html word : str) (defs : list DefinitionRecord) :
  parse_definitions html word = Ok defs -> length defs <= 10.
Proof.
  rewrite parse_definitions_spec. intros H. apply Ok_inj in H. subst defs.
  apply firstn_le_length.
Qed.

(** X12: a body with definitions is only sent with status 200; its word is the
    trimmed parameter, which is not empty, and its list is what the
    extraction returned on the fetched page: between 1 and 10 records. *)
Theorem handler_definitions_payload (fetch : str -> result str) (event : Event)
    (w : str) (defs : list DefinitionRecord) :
  body (handler fetch event) = DefinitionsBody w defs ->
  statusCode (handler fetch event) = 200%Z
  /\ w = event_word event
  /\ w <> []
  /\ 1 <= length defs <= 10
  /\ exists html, fetch w = Ok html /\ parse_definitions html w = Ok defs.
Proof.
  rewrite handler_unfold.
  destruct (str_eqb _ (lit "OPTIONS")); [discriminate|].
  destruct (negb (str_eqb _ (lit "GET"))); [discriminate|].
  destruct (Py.truthy (event_word event)) eqn:T; cbn [negb]; [|discriminate].
  destruct (fetch (event_word event)) as [html|e] eqn:F; [|discriminate].
  destruct (parse_definitions html (event_word event)) as [[|r rs]|e] eqn:P;
    try discriminate.
  cbn [json_response body statusCode]. intros [= <- <-].
  split; [reflexivity|]. split; [reflexivity|].
  split; [intros E; rewrite E in T; discriminate T|].
  split.
  - pose proof (@handler_defs_length html (event_word event) (r :: rs) P).
    cbn [length] in *. lia.
  - exists html. now split.
Qed.

Lemma handler_definitions_payload_witness :
  body (handler (fun _ => Ok example_markup) (get_event (lit " word ")))
    = DefinitionsBody (lit "word") [example_record]
  /\ statusCode (handler (fun _ => Ok example_markup) (get_event (lit " word ")))
     = 200%Z.
Proof.
  assert (B : body (handler (fun _ => Ok example_markup) (get_event (lit " word ")))
              = DefinitionsBody (lit "word") [example_record])
    by (vm_compute; reflexivity).
  split; [exact B|].
  exact (proj1 (@handler_definitions_payload _ _ _ _ B)).
Defined.

(** X13: when the fetched page has no [<] at all, the answer is 404. *)
Theorem handler_plain_text_404 (fetch : str -> result str) (event : Event)
    (html : str) :
  event_method event = lit "GET" ->
  event_word event <> [] ->
  fetch (event_word event) = Ok html ->
  ~ In LT html ->
  handler fetch event = json_response 404 (ErrorBody MSG_NOT_FOUND).
Proof.
  intros M W F H. rewrite handler_unfold, M.
  rewrite get_is_not_options, get_is_get. cbn [negb].
  rewrite (truthy_nonempty W). cbn [negb].
  rewrite F, (@parse_no_lt html (event_word event) H). reflexivity.
Qed.

Lemma handler_plain_text_404_witness :
  statusCode (handler (fun _ => Ok (lit "service unavailable"))
                (get_event (lit "word"))) = 404%Z.
Proof.
  rewrite (@handler_plain_text_404 (fun _ => Ok (lit "service unavailable"))
             (get_event (lit "word")) (lit "service unavailable")).
  - reflexivity.
  - reflexivity.
  - vm_compute. discriminate.
  - reflexivity.
  - intros Hin. vm_compute in Hin.
    repeat (destruct Hin as [Hin|Hin]; [discriminate Hin|]). exact Hin.
Defined.

(** X14: the handler consults the fetch at the trimmed word only, and only for a
    GET request with a non-empty word: two fetches that agree there give the
    same response. *)
Theorem handler_fetch_local (fetch1 fetch2 : str -> result str) (event : Event) :
  (event_method event = lit "GET" -> event_word event <> [] ->
   fetch1 (event_word event) = fetch2 (event_word event)) ->
  handler fetch1 event = handler fetch2 event.
Proof.
  intros H. rewrite !handler_unfold.
  destruct (str_eqb _ (lit "OPTIONS")); [reflexivity|].
  destruct (str_eqb (event_method event) (lit "GET")) eqn:EG; cbn [negb];
    [|reflexivity].
  apply str_eqb_true in EG.
  destruct (Py.truthy (event_word event)) eqn:T; cbn [negb]; [|reflexivity].
  rewrite H; [reflexivity|exact EG|].
  intros E. rewrite E in T. discriminate T.
Qed.

Lemma handler_fetch_local_witness :
  handler (fun _ => Ok example_markup) (get_event (lit " word "))
  = handler (fun w => if str_eqb w (lit "word") then Ok example_markup
                      else Raise IndexError)
      (get_event (lit " word ")).
Proof.
  apply handler_fetch_local. intros _ _. vm_compute. reflexivity.
Defined.

(** * Further properties of cleaning *)

(** X15: the texts that cleaning leaves as they are are exactly those
    without a tag, with collapsed whitespace and without whitespace at
    either end. *)
Theorem clean_fixed_points (content : str) :
  clean content = content
  <-> has_tag content = false
      /\ collapsed content = true
      /\ Py.strip content = content.
Proof.
  split.
  - intros E. rewrite <- E. split; [apply clean_no_tag|].
    split; [apply clean_collapsed|]. unfold clean. apply strip_idem.
  - intros (T & C & S). unfold clean.
    now rewrite (tag_sub_id content T), (ws_sub_id content C).
Qed.

Lemma after_gt_app (m b : str) : ~ In GT m -> after_gt (m ++ GT :: b) = b.
Proof.
  induction m as [|x m IH]; intros H; cbn [app after_gt].
  - now rewrite N.eqb_refl.
  - destruct (N.eqb_spec x GT) as [->|]; [destruct H; now left|].
    apply IH. intros Hin. apply H. now right.
Qed.

(** X16: a tag is removed whole and leaves the text before it untouched:
    when the text before has no [<], and the tag has a non-empty body
    without [>], stripping gives the text before followed by the stripped
    rest. *)
Theorem tag_removed (a body b : str) :
  ~ In LT a -> body <> [] -> ~ In GT body ->
  Re.sub tag_re [] (a ++ LT :: body ++ GT :: b) = a ++ Re.sub tag_re [] b.
Proof.
  intros Ha Hne Hgt. induction a as [|c a IH].
  - destruct body as [|x m]; [congruence|].
    cbn [app]. rewrite tag_sub_cons.
    assert (Hx : (x =? GT)%N = false).
    { destruct (N.eqb_spec x GT) as [->|]; [destruct Hgt; now left|reflexivity]. }
    assert (T : tag_starts (LT :: x :: m ++ GT :: b) = true).
    { cbn [tag_starts]. rewrite Hx, has_gt_app. cbn [has_gt].
      rewrite N.eqb_refl, orb_true_r. reflexivity. }
    rewrite T. cbn [tl]. rewrite after_gt_app; [reflexivity|].
    intros Hin. apply Hgt. now right.
  - change ((c :: a) ++ LT :: body ++ GT :: b)
      with (c :: (a ++ LT :: body ++ GT :: b)).
    rewrite tag_sub_cons, tag_starts_not_lt.
    + rewrite IH; [reflexivity|]. intros Hin. apply Ha. now right.
    + destruct (N.eqb_spec c LT) as [->|]; [destruct Ha; now left|reflexivity].
Qed.

Lemma tag_removed_witness :
  Re.sub tag_re [] (lit "a " ++ LT :: lit "b class=x" ++ GT :: lit "bold")
  = lit "a " ++ Re.sub tag_re [] (lit "bold").
Proof.
  apply tag_removed.
  - intros Hin. vm_compute in Hin.
    repeat (destruct Hin as [Hin|Hin]; [discriminate Hin|]). exact Hin.
  - discriminate.
  - intros Hin. vm_compute in Hin.
    repeat (destruct Hin as [Hin|Hin]; [discriminate Hin|]). exact Hin.
Defined.
